(** * bearingstoGPS: the bearing parser and the traverse loop

    A shallow embedding of [utils/bearings_utils.py] ([bearing_pat],
    [angle_pat], [parse_bearing]) and of the point-accumulating loop of
    [bearingstogps.py], together with the properties stated about them;
    then of the header and file-type checks of [utils/file_utils.py] and
    of the script with what it prints.

    Conventions.
    - A Python [str] is a list of code points ([N]).
    - A Python [float] is an IEEE-754 binary64 value, given by the
      standard library's [spec_float] at precision 53 and maximal exponent
      1024; the arithmetic is the correctly rounded one of [SpecFloat].
    - [raise] is the [Error] constructor of a result type; every function
      that can raise returns a [result]. *)

From Stdlib Require Import ZArith NArith QArith Qabs List String Ascii Bool Lia.
From Stdlib Require Import Sorted Permutation.
From Stdlib Require Import Floats.SpecFloat.
Import ListNotations.

Set Implicit Arguments.

(* ================================================================== *)
(** * Python strings *)
(* ================================================================== *)

Module Py.

Definition char := N.
Definition str := list char.

(** A string literal, as its list of code points (ASCII literals only). *)
Definition of_string (s : string) : str :=
  List.map N_of_ascii (list_ascii_of_string s).

Fixpoint take_while (p : char -> bool) (s : str) : str :=
  match s with
  | [] => []
  | c :: s' => if p c then c :: take_while p s' else []
  end.

Fixpoint drop_while (p : char -> bool) (s : str) : str :=
  match s with
  | [] => []
  | c :: s' => if p c then drop_while p s' else s
  end.

(** [c in chars] *)
Definition mem (chars : str) (c : char) : bool := existsb (N.eqb c) chars.

(** [str.isspace] on one code point: the code points for which CPython's
    [Py_UNICODE_ISSPACE] holds.  The same predicate decides [\s] in a
    [str] pattern and what [str.strip()] removes. *)
Definition isspace (c : char) : bool :=
  (((9 <=? c) && (c <=? 13)) || ((28 <=? c) && (c <=? 32))
   || (c =? 133) || (c =? 160) || (c =? 5760)
   || ((8192 <=? c) && (c <=? 8202))
   || (c =? 8232) || (c =? 8233) || (c =? 8239) || (c =? 8287)
   || (c =? 12288))%N.

Definition lstrip (s : str) : str := drop_while isspace s.
Definition rstrip (s : str) : str := rev (drop_while isspace (rev s)).

(** [s.strip()] *)
Definition strip (s : str) : str := rstrip (lstrip s).

(** [s.startswith(prefix)] *)
Fixpoint startswith (s prefix : str) {struct prefix} : bool :=
  match prefix, s with
  | [], _ => true
  | _ :: _, [] => false
  | p :: prefix', c :: s' => (c =? p)%N && startswith s' prefix'
  end.

(** [s] is not the empty string *)
Definition nonempty (s : str) : bool :=
  match s with [] => false | _ :: _ => true end.

(** [s == t] *)
Fixpoint eqb (s t : str) : bool :=
  match s, t with
  | [], [] => true
  | c :: s', d :: t' => (c =? d)%N && eqb s' t'
  | _, _ => false
  end.

End Py.

(* ================================================================== *)
(** * Python floats (binary64) *)
(* ================================================================== *)

Module F64.

Import Py.
Open Scope Z_scope.

Definition prec : Z := 53.
Definition emax : Z := 1024.

Definition float := spec_float.

Definition add : float -> float -> float := SFadd prec emax.
Definition mul : float -> float -> float := SFmul prec emax.
Definition div : float -> float -> float := SFdiv prec emax.
Definition ltb : float -> float -> bool := SFltb.
Definition leb : float -> float -> bool := SFleb.

(** The float of an integer (exact for the small constants of the code). *)
Definition of_Z (z : Z) : float := binary_normalize prec emax z 0 false.

Definition nan : float := S754_nan.
Definition is_nan (x : float) : bool :=
  match x with S754_nan => true | _ => false end.

(** The rational a finite float stands for ([None] for infinities and
    NaN). *)
Definition to_Q (x : float) : option Q :=
  match x with
  | S754_zero _ => Some 0%Q
  | S754_finite s m e =>
      let v := match e with
               | Zneg p => Qmake (Zpos m) (2 ^ p)%positive
               | _ => inject_Z (Zpos m * 2 ^ e)
               end in
      Some (if s then Qopp v else v)
  | _ => None
  end.

(** ** [float(s)] on the strings the angle pattern can capture

    [float] accepts an optional sign followed by decimal digits with at
    most one point and at least one digit, and returns the binary64
    nearest to the decimal (ties to even, overflow to infinity); anything
    else raises [ValueError].  The captured runs contain only the
    characters [+ - . 0-9], so exponents, underscores, surrounding blanks
    and the words [inf] and [nan] cannot occur in them: a string with any
    other character is rejected here. *)

Definition is_digit (c : char) : bool := ((48 <=? c) && (c <=? 57))%N.

Definition digit_val (c : char) : Z := Z.of_N (c - 48).

Definition digits_val (ds : str) : Z :=
  fold_left (fun acc c => 10 * acc + digit_val c) ds 0.

(** The correctly rounded quotient [m / 10^k], with sign [neg]. *)
Definition decimal (neg : bool) (m : Z) (k : nat) : float :=
  match m with
  | Zpos p =>
      div (S754_finite neg p 0)
          (S754_finite false (Z.to_pos (10 ^ Z.of_nat k)) 0)
  | _ => S754_zero neg
  end.

Definition unsigned_decimal (neg : bool) (s : str) : option float :=
  let ip := take_while is_digit s in
  match drop_while is_digit s with
  | [] =>
      if nonempty ip then Some (decimal neg (digits_val ip) 0) else None
  | c :: fp =>
      if (c =? 46)%N && forallb is_digit fp && nonempty (ip ++ fp)
      then Some (decimal neg (digits_val (ip ++ fp)) (List.length fp))
      else None
  end.

(** [float(s)]; [None] is Python's [ValueError: could not convert string
    to float]. *)
Definition of_str (s : str) : option float :=
  match s with
  | c :: s' =>
      if (c =? 43)%N then unsigned_decimal false s'
      else if (c =? 45)%N then unsigned_decimal true s'
      else unsigned_decimal false s
  | [] => None
  end.

End F64.

(* ================================================================== *)
(** * The fragment of [re] that the two patterns use *)
(* ================================================================== *)

Module Re.

Import Py.

(** A pattern is a sequence of items; an item is one character of a set
    or a greedy star over a set, captured in a group or not. *)
Inductive atom :=
| One (cls : char -> bool)      (* [...]  *)
| Many (cls : char -> bool).    (* [...]* *)

Inductive item :=
| Plain (a : atom)              (*  a  *)
| Capture (a : atom).           (* (a) *)

Definition regex := list item.

Definition atom_of (i : item) : atom :=
  match i with Plain a | Capture a => a end.

(** The groups gain the text an item consumed when the item is a group. *)
Definition record (i : item) (text : str) (groups : option (list str))
  : option (list str) :=
  match i, groups with
  | Capture _, Some gs => Some (text :: gs)
  | _, _ => groups
  end.

(** Greedy choice with backtracking: try to let the star consume [k]
    characters, then [k - 1], ..., then none. *)
Fixpoint backtrack (k : nat) (attempt : nat -> option (list str))
  : option (list str) :=
  match attempt k with
  | Some gs => Some gs
  | None =>
      match k with
      | O => None
      | S k' => backtrack k' attempt
      end
  end.

(** Match [r] at the start of [s]; the result is the list of the groups'
    texts. *)
Fixpoint match_here (r : regex) (s : str) : option (list str) :=
  match r with
  | [] => Some []
  | i :: r' =>
      match atom_of i with
      | One cls =>
          match s with
          | c :: s' => if cls c then record i [c] (match_here r' s') else None
          | [] => None
          end
      | Many cls =>
          backtrack (List.length (take_while cls s))
            (fun k => record i (firstn k s) (match_here r' (skipn k s)))
      end
  end.

(** [re.search(r, s).groups()], [None] when there is no match: the first
    start position at which the pattern matches wins. *)
Fixpoint search (r : regex) (s : str) : option (list str) :=
  match match_here r s with
  | Some gs => Some gs
  | None =>
      match s with
      | [] => None
      | _ :: s' => search r s'
      end
  end.

(** [groups[n]] *)
Definition group (gs : list str) (n : nat) : str := nth n gs [].

End Re.

(* ================================================================== *)
(** * utils/bearings_utils.py *)
(* ================================================================== *)

Module BearingsUtils.

Import Py F64 Re.

Inductive cardinal := north | east | south | west.

Definition cardinal_eqb (a b : cardinal) : bool :=
  match a, b with
  | north, north | east, east | south, south | west, west => true
  | _, _ => false
  end.

(** The [ValueError]s of [parse_bearing], told apart by their message;
    the last one is the error [float(...)] itself raises. *)
Inductive exn :=
| InvalidCardinals (init dir : cardinal) (bearing_str : str)
| CouldNotParseAngle (angle_str : str)
| CouldNotParseBearing (bearing_str : str)
| InvalidBearingResult (bearing : float)
| CouldNotConvertToFloat (s : str).

Inductive result (A : Type) :=
| Ok (a : A)
| Error (e : exn).

Arguments Ok {A} a.
Arguments Error {A} e.

Definition bind {A B} (m : result A) (k : A -> result B) : result B :=
  match m with
  | Ok a => k a
  | Error e => Error e
  end.

Notation "x <- m ;; k" := (bind m (fun x => k))
  (at level 61, m at next level, right associativity).

(** [float(s)] inside [parse_bearing] *)
Definition float_of (s : str) : result float :=
  match F64.of_str s with
  | Some x => Ok x
  | None => Error (CouldNotConvertToFloat s)
  end.

(** The character sets of the two patterns. *)
Definition cardinal_letter : char -> bool :=
  mem (of_string "SOUTHsouthEAeaWwNRnr").

Definition not_cardinal_letter (c : char) : bool := negb (cardinal_letter c).

Definition numeric (c : char) : bool :=
  mem (of_string "+-.") c || is_digit c.

Definition not_numeric (c : char) : bool := negb (numeric c).

(** [bearing_pat]: three groups, each a starred character set, the first
    and third over the set [SOUTHsouthEAeaWwNRnr], the second over its
    complement, with a starred [\s] after the first and after the second. *)
Definition bearing_pat : regex :=
  [ Capture (Many cardinal_letter); Plain (Many isspace);
    Capture (Many not_cardinal_letter); Plain (Many isspace);
    Capture (Many cardinal_letter) ].

(** [angle_pat]: three groups, each a starred set [+ - . 0-9], with the
    starred complement of that set between consecutive groups. *)
Definition angle_pat : regex :=
  [ Capture (Many numeric); Plain (Many not_numeric);
    Capture (Many numeric); Plain (Many not_numeric);
    Capture (Many numeric) ].

(** [s.startswith(U) or s.startswith(l)] for a one-letter [U], [l]. *)
Definition starts (s : str) (upper lower : string) : bool :=
  startswith s (of_string upper) || startswith s (of_string lower).

Definition parse_bearing (bearing_str : str) : result float :=
  let init := north in
  let dir := east in
  let bearing := of_Z 0 in
  let angle_dir := 1%Z in
  bearing <-
    match search bearing_pat bearing_str with
    | Some bearing_groups =>
        let init_str := group bearing_groups 0 in
        let angle_str := strip (group bearing_groups 1) in
        let dir_str := group bearing_groups 2 in
        let '(init, bearing) :=
          if starts init_str "E" "e" then (east, of_Z 90)
          else if starts init_str "S" "s" then (south, of_Z 180)
          else if starts init_str "W" "w" then (east, of_Z 270)
          else (init, bearing) in
        let '(dir, bearing, angle_dir) :=
          if starts dir_str "S" "s" then
            (south, bearing, if cardinal_eqb init west then (-1)%Z else angle_dir)
          else if starts dir_str "N" "n" then
            if cardinal_eqb init east then (north, of_Z 360, (-1)%Z)
            else (north, bearing, angle_dir)
          else if starts dir_str "W" "w" then
            (west, bearing, if cardinal_eqb init north then (-1)%Z else angle_dir)
          else
            (dir, bearing, if cardinal_eqb init south then (-1)%Z else angle_dir) in
        if ((cardinal_eqb init south || cardinal_eqb init north)
            && (cardinal_eqb dir south || cardinal_eqb dir north))
           || ((cardinal_eqb init west || cardinal_eqb init east)
               && (cardinal_eqb dir west || cardinal_eqb dir east))
        then Error (InvalidCardinals init dir bearing_str)
        else
          match search angle_pat angle_str with
          | Some angle_groups =>
              let degrees_str := group angle_groups 0 in
              let minutes_str := group angle_groups 1 in
              let seconds_str := group angle_groups 2 in
              bearing <-
                (if nonempty degrees_str then
                   x <- float_of degrees_str ;;
                   Ok (add bearing (mul (of_Z angle_dir) x))
                 else Ok bearing) ;;
              bearing <-
                (if nonempty minutes_str then
                   x <- float_of minutes_str ;;
                   Ok (add bearing (div (mul (of_Z angle_dir) x) (of_Z 60)))
                 else Ok bearing) ;;
              bearing <-
                (if nonempty seconds_str then
                   x <- float_of seconds_str ;;
                   Ok (add bearing (div (mul (of_Z angle_dir) x) (of_Z 3600)))
                 else Ok bearing) ;;
              Ok bearing
          | None => Error (CouldNotParseAngle angle_str)
          end
    | None => Error (CouldNotParseBearing bearing_str)
    end ;;
  let bearing := if ltb bearing (of_Z 0) then add bearing (of_Z 360) else bearing in
  if ltb bearing (of_Z 0) || ltb (of_Z 360) bearing
  then Error (InvalidBearingResult bearing)
  else Ok bearing.

End BearingsUtils.

(* ================================================================== *)
(** * bearingstogps.py: the loop that accumulates the points *)
(* ================================================================== *)

Module BearingsToGps.

Import Py F64 BearingsUtils.

(** The [choices] of [--distance-units]; the option is [None] when the
    flag is not given. *)
Inductive unit_name := feet | poles | rods.

(** One row of the table read with
    [dtype={"bearing": str, "distance": float}]. *)
Record row := Row { bearing : str; distance : float }.

(** What the loop body can raise: the [ValueError]s of [parse_bearing],
    the [TypeError] of [re.search] on [None], the [IndexError] of
    [points[-1]] on an empty list. *)
Inductive failure :=
| ValueError (e : exn)
| TypeError
| IndexError.

(** [get_row_val(row, "bearing")]: the stripped cell, [None] for the
    empty string and for the text [nan]. *)
Definition get_row_val (cell : str) : option str :=
  let val := strip cell in
  if nonempty val && negb (Py.eqb val (of_string "nan"))
  then Some val else None.

(** [parse_bearing(bearing_str)] as the loop calls it. *)
Definition parse_cell (cell : str) : failure + float :=
  match get_row_val cell with
  | None => inl TypeError
  | Some bearing_str =>
      match parse_bearing bearing_str with
      | Ok b => inr b
      | Error e => inl (ValueError e)
      end
  end.

(** [16.5] *)
Definition feet_per_pole : float := decimal false 165 1.

(** [if args["units"] == "poles" or args["units"] == "rods": distance *= 16.5] *)
Definition to_feet (units : option unit_name) (distance : float) : float :=
  match units with
  | Some poles | Some rods => mul distance feet_per_pole
  | _ => distance
  end.

Section Traverse.

(** [geopy.Point] and
    [geopy.distance.geodesic(feet=distance).destination(start_point, bearing)],
    the external geodesic computation, taken as a function. *)
Variable point : Type.
Variable destination : float -> point -> float -> point.

(** [points[-1]] *)
Definition last_point (points : list point) : option point :=
  match rev points with
  | p :: _ => Some p
  | [] => None
  end.

(** One iteration of the [for] loop on the list [points]. *)
Definition body (units : option unit_name) (points : list point) (r : row)
  : failure + list point :=
  let distance := to_feet units (distance r) in
  match parse_cell (bearing r) with
  | inl e => inl e
  | inr bearing =>
      match last_point points with
      | None => inl IndexError
      | Some start_point =>
          let end_point := destination distance start_point bearing in
          inr (points ++ [end_point])
      end
  end.

(** The loop over the rows of the table, in their order. *)
Fixpoint loop (units : option unit_name) (points : list point)
  (rows : list row) : failure + list point :=
  match rows with
  | [] => inr points
  | r :: rows' =>
      match body units points r with
      | inl e => inl e
      | inr points' => loop units points' rows'
      end
  end.

(** [points = [origin]] followed by the loop. *)
Definition traverse (units : option unit_name) (origin : point)
  (rows : list row) : failure + list point :=
  loop units [origin] rows.

End Traverse.

End BearingsToGps.

(* ================================================================== *)
(** * The vocabulary of the specification *)
(* ================================================================== *)

Module Spec.

Import Py F64 Re BearingsUtils.

(** The three zones of a bearing text. *)
Definition prefix_zone (s : str) : str := take_while cardinal_letter s.

Definition middle_zone (s : str) : str :=
  strip (take_while not_cardinal_letter (drop_while cardinal_letter s)).

Definition suffix_zone (s : str) : str :=
  take_while cardinal_letter
    (drop_while not_cardinal_letter (drop_while cardinal_letter s)).

(** The numeric runs of a middle zone, left to right. *)
Definition after_run (a : str) : str :=
  drop_while not_numeric (drop_while numeric a).

Definition degrees_run (a : str) : str := take_while numeric a.
Definition minutes_run (a : str) : str := take_while numeric (after_run a).
Definition seconds_run (a : str) : str :=
  take_while numeric (after_run (after_run a)).

(** What a star-only pattern captures when every star takes all it can. *)
Fixpoint greedy (r : regex) (s : str) : list str :=
  match r with
  | [] => []
  | i :: r' =>
      match atom_of i with
      | Many cls =>
          match i with
          | Capture _ => take_while cls s :: greedy r' (drop_while cls s)
          | Plain _ => greedy r' (drop_while cls s)
          end
      | One _ => []
      end
  end.

Definition star_only (i : item) : Prop :=
  match atom_of i with Many _ => True | One _ => False end.

(** First character of a zone among the given letters. *)
Definition begins_with (letters : string) (zone : str) : bool :=
  match zone with
  | c :: _ => mem (of_string letters) c
  | [] => false
  end.

(** Initial reference and swing direction, as the specification decodes
    them: West is West. *)
Definition initial_reference (s : str) : cardinal :=
  let p := prefix_zone s in
  if begins_with "Ee" p then east
  else if begins_with "Ss" p then south
  else if begins_with "Ww" p then west
  else north.

Definition swing_direction (s : str) : cardinal :=
  let x := suffix_zone s in
  if begins_with "Ss" x then south
  else if begins_with "Nn" x then north
  else if begins_with "Ww" x then west
  else east.

Definition north_south (c : cardinal) : bool :=
  match c with north | south => true | _ => false end.

Definition same_axis (a b : cardinal) : bool :=
  (north_south a && north_south b) || (negb (north_south a) && negb (north_south b)).

(** A numeric run converted when present. *)
Definition component (run : str) : result (option float) :=
  if nonempty run then x <- float_of run ;; Ok (Some x) else Ok None.

(** [base + sign * degrees + sign * minutes / 60 + sign * seconds / 3600]
    over the components that are present, in binary64. *)
Definition swung (base : float) (sign : Z) (d m sec : option float) : float :=
  let b := match d with
           | Some x => add base (mul (of_Z sign) x)
           | None => base
           end in
  let b := match m with
           | Some x => add b (div (mul (of_Z sign) x) (of_Z 60))
           | None => b
           end in
  match sec with
  | Some x => add b (div (mul (of_Z sign) x) (of_Z 3600))
  | None => b
  end.

(** 360 added once to a negative azimuth. *)
Definition adjusted (b : float) : float :=
  if ltb b (of_Z 0) then add b (of_Z 360) else b.

(** The azimuth within [0, 360], as comparisons of floats. *)
Definition in_range (b : float) : bool := leb (of_Z 0) b && leb b (of_Z 360).

(** Step 3: adjust, then fail when still below 0 or above 360. *)
Definition normalized (b : float) : result float :=
  if ltb (adjusted b) (of_Z 0) || ltb (of_Z 360) (adjusted b)
  then Error (InvalidBearingResult (adjusted b))
  else Ok (adjusted b).

(** Base azimuth and sign as the code assigns them from the first letters
    of the prefix and of the suffix. *)
Definition base_and_sign (init_str dir_str : str) : cardinal * cardinal * float * Z :=
  let '(init, base) :=
    if begins_with "Ee" init_str then (east, of_Z 90)
    else if begins_with "Ss" init_str then (south, of_Z 180)
    else if begins_with "Ww" init_str then (east, of_Z 270)
    else (north, of_Z 0) in
  if begins_with "Ss" dir_str then (init, south, base, 1%Z)
  else if begins_with "Nn" dir_str then
    match init with
    | east => (init, north, of_Z 360, (-1)%Z)
    | _ => (init, north, base, 1%Z)
    end
  else if begins_with "Ww" dir_str then
    (init, west, base, match init with north => (-1)%Z | _ => 1%Z end)
  else
    (init, east, base, match init with south => (-1)%Z | _ => 1%Z end).

(** The bearing text runs through the three steps of the parser. *)
Definition steps (s : str) : result float :=
  let '(init, dir, base, sign) := base_and_sign (prefix_zone s) (suffix_zone s) in
  if same_axis init dir then Error (InvalidCardinals init dir s)
  else
    let a := middle_zone s in
    d <- component (degrees_run a) ;;
    m <- component (minutes_run a) ;;
    sec <- component (seconds_run a) ;;
    normalized (swung base sign d m sec).

(** The distance, within a tolerance, between a float and a rational. *)
Definition within (tol target : Q) (x : float) : Prop :=
  match to_Q x with
  | Some q => (Qabs (q - target) <= tol)%Q
  | None => False
  end.

(** The kinds of failure of the parser that are not a pattern that did
    not match. *)
Definition axis_conflict (e : exn) : Prop :=
  match e with InvalidCardinals _ _ _ => True | _ => False end.

Definition out_of_range (e : exn) : Prop :=
  match e with InvalidBearingResult _ => True | _ => False end.

Definition not_a_number (e : exn) : Prop :=
  match e with CouldNotConvertToFloat _ => True | _ => False end.

Definition no_match (e : exn) : Prop :=
  match e with
  | CouldNotParseAngle _ | CouldNotParseBearing _ => True
  | _ => False
  end.

(** A row whose bearing cell reaches [parse_bearing] and is parsed to the
    azimuth [b]. *)
Definition parses_to (r : BearingsToGps.row) (b : float) : Prop :=
  exists bearing_str,
    BearingsToGps.get_row_val (BearingsToGps.bearing r) = Some bearing_str
    /\ parse_bearing bearing_str = Ok b.

(** The distance of a row in feet. *)
Definition in_feet (units : option BearingsToGps.unit_name) (d : float) : float :=
  match units with
  | Some BearingsToGps.poles | Some BearingsToGps.rods =>
      mul d (decimal false 165 1)
  | Some BearingsToGps.feet | None => d
  end.

(** A stand-in for the geodesic computation that only records the legs
    it was asked to walk. *)
Definition walked := list (float * float).

Definition walk (d : float) (p : walked) (b : float) : walked := p ++ [(d, b)].

(** Two records, the first with blanks around its bearing, and the
    azimuths they parse to. *)
Definition two_rows : list BearingsToGps.row :=
  [ BearingsToGps.Row (of_string " N 10 E ") (of_Z 2);
    BearingsToGps.Row (of_string "S") (of_Z 1) ].

Definition two_azimuths : list float := [of_Z 10; of_Z 180].

(** A bearing text whose degrees overflow to [+inf] and whose minutes
    overflow to [-inf]. *)
Definition nines (n : nat) : str := repeat 57%N n.

Definition overflowing : str :=
  of_string "N " ++ nines 400 ++ of_string " -" ++ nines 400 ++ of_string " E".

End Spec.

(* ================================================================== *)
(** * utils/file_utils.py *)
(* ================================================================== *)

Module FileUtils.

Import Py F64.

(** A list of strings held as a Python list of [str]. *)
Definition strs (l : list string) : list str := List.map of_string l.

(** [x in l] for a list of [str] *)
Definition contains (l : list str) (x : str) : bool := existsb (Py.eqb x) l.

(** [a == b] for two lists of [str] *)
Fixpoint list_eqb (a b : list str) : bool :=
  match a, b with
  | [], [] => true
  | x :: a', y :: b' => Py.eqb x y && list_eqb a' b'
  | _, _ => false
  end.

(** A value held in a cell of a dataframe row. *)
Inductive value :=
| VStr (s : str)
| VFloat (x : float)
| VNone.

(** A row of a dataframe: its labels, which [validate_headers] has found
    distinct, with the value under each. *)
Definition series := list (str * value).

(** [row[header]], [None] when [header not in row] *)
Fixpoint lookup (row : series) (header : str) : option value :=
  match row with
  | [] => None
  | (h, v) :: row' => if Py.eqb h header then Some v else lookup row' header
  end.

(** What the functions of this file raise. *)
Inductive error :=
| InvalidDataHeader (header : str) (all_headers : option (list str))
| DuplicateFileHeaders (filepath : str) (nall nuniqs : nat) (headers : list str)
| InvalidHeaders (headers expected_headers missing unexpected : list str)
    (file : option str)
| InvalidDtypeDict (keys columns : list str)
| InvalidFileExtension (ext : str)
| InvalidFileType (filetype : str)
| YamlHasNoHeaders
| ProbeCrashed
| MessageError.

(** The exceptions of this file that [InfileError.__init__] formats with
    [message % ...], the names they hold being part of the message. *)
Inductive template :=
| ForInvalidHeaders
| ForInvalidDtypeDict
| ForInvalidDtypeKeys.

(** Whether [message % ...] returns for the message of an exception built
    from two lists of names: it does when no name holds a percent sign,
    and can raise, in place of the exception, when one does. *)
Definition rendering := template -> list str -> list str -> bool.

(** [none_vals] *)
Definition none_vals : list str := [ []; of_string "nan" ].

(** [get_row_val(row, header, strip, all_headers)] *)
Definition get_row_val (row : series) (header : str) (strip_arg : bool)
  (all_headers : option (list str)) : error + value :=
  match lookup row header with
  | Some val =>
      let val := match val with
                 | VStr s => if strip_arg then VStr (strip s) else val
                 | _ => val
                 end in
      let val := match val with
                 | VStr s => if contains none_vals s then VNone else val
                 | _ => val
                 end in
      inr val
  | None => inl (InvalidDataHeader header all_headers)
  end.

(** [list(dict.fromkeys(headers))]: the headers in the order of their
    first occurrence. *)
Definition fromkeys (headers : list str) : list str :=
  fold_left (fun keys h => if contains keys h then keys else keys ++ [h])
    headers [].

Definition _headers_are_not_unique (headers : list str) : bool * nat * nat :=
  let num_uniq_heads := List.length (fromkeys headers) in
  let num_heads := List.length headers in
  if negb (num_uniq_heads =? num_heads)%nat
  then (true, num_uniq_heads, num_heads)
  else (false, num_uniq_heads, num_heads).

(** [s <= t] on [str]: the order of the code points, position by
    position. *)
Fixpoint str_leb (s t : str) : bool :=
  match s, t with
  | [], _ => true
  | _ :: _, [] => false
  | c :: s', d :: t' => (c <? d)%N || ((c =? d)%N && str_leb s' t')
  end.

(** [sorted(l)] for a list of [str].  The order is total and two strings
    that compare equal are the same string, so every sorting algorithm
    returns the same list; this one inserts. *)
Fixpoint insert_sorted (x : str) (l : list str) : list str :=
  match l with
  | [] => [x]
  | y :: l' => if str_leb x y then x :: l else y :: insert_sorted x l'
  end.

Definition sorted (l : list str) : list str := fold_right insert_sorted [] l.

(** The list comprehensions of [InvalidHeaders.__init__]. *)
Definition missing_of (headers expected_headers : list str) : list str :=
  filter (fun i => negb (contains headers i)) expected_headers.

Definition unexpected_of (headers expected_headers : list str) : list str :=
  filter (fun i => negb (contains expected_headers i)) headers.

(** [InvalidHeaders(headers, expected_headers, fileformat, file=file)];
    the file format only enters the message, and without a file the
    message is made of the missing and the unexpected headers. *)
Definition invalid_headers (renders : rendering)
  (headers expected_headers : list str)
  (fileformat file : option str) : error :=
  let missing := missing_of headers expected_headers in
  let unexpected := unexpected_of headers expected_headers in
  if renders ForInvalidHeaders missing unexpected
  then InvalidHeaders headers expected_headers missing unexpected file
  else MessageError.

Section Lower.

(** [str.lower], Unicode's lower-casing, taken as a function. *)
Variable lower : str -> str.
Variable renders : rendering.

(** [headers_are_as_expected(expected, headers)] *)
Definition headers_are_as_expected (expected headers : list str) : bool :=
  list_eqb (sorted (List.map lower headers)) (sorted (List.map lower expected)).

(** [validate_headers(filepath, headers, expected_headers)]; the path is
    passed on in the position of [fileformat]. *)
Definition validate_headers (filepath : str) (headers : list str)
  (expected_headers : option (list str)) : error + unit :=
  let '(not_unique, nuniqs, nall) := _headers_are_not_unique headers in
  if not_unique then inl (DuplicateFileHeaders filepath nall nuniqs headers)
  else
    match expected_headers with
    | Some expected =>
        if negb (headers_are_as_expected expected headers)
        then inl (invalid_headers renders headers expected (Some filepath) None)
        else inr tt
    | None => inr tt
    end.

End Lower.

(** The warning [_check_dtype_arg] prints. *)
Inductive warning := InvalidDtypeKeys (missing columns : list str).

(** [_check_dtype_arg(filepath, result, sheet, dtype)], on the keys of
    [dtype] and the columns of [result]. *)
Definition _check_dtype_arg (renders : rendering)
  (result : option (list str)) (dtype : option (list str))
  : error + option warning :=
  match dtype, result with
  | Some keys, Some columns =>
      if (0 <? List.length keys)%nat then
        let missing := filter (fun dtk => negb (contains columns dtk)) keys in
        if (List.length missing =? List.length keys)%nat
        then
          if renders ForInvalidDtypeDict keys columns
          then inl (InvalidDtypeDict keys columns)
          else inl MessageError
        else if (0 <? List.length missing)%nat
        then
          if renders ForInvalidDtypeKeys missing columns
          then inr (Some (InvalidDtypeKeys missing columns))
          else inl MessageError
        else inr None
      else inr None
  | _, _ => inr None
  end.

(** [filetypes] and [extensions] of [_get_file_type] *)
Definition filetypes : list str := strs ["csv"; "tsv"; "excel"; "yaml"]%string.

Definition extensions : list (str * str) :=
  [ (of_string "csv", of_string "csv");
    (of_string "tsv", of_string "tsv");
    (of_string "xlsx", of_string "excel");
    (of_string "yaml", of_string "yaml");
    (of_string "yml", of_string "yaml") ].

Fixpoint extension_type (exts : list (str * str)) (ext : str) : option str :=
  match exts with
  | [] => None
  | (e, t) :: exts' => if Py.eqb e ext then Some t else extension_type exts' ext
  end.

(** [s.strip(".")] *)
Definition is_dot (c : char) : bool := (c =? 46)%N.

Definition strip_dots (s : str) : str :=
  rev (drop_while is_dot (rev (drop_while is_dot s))).

(** What [pd.ExcelFile(filepath, engine="openpyxl")] does: it opens the
    file, raises one of the three exceptions the code catches, or raises
    something else. *)
Inductive probe := Opens | NotExcel | Crashes.

(** [_get_file_type(filepath, filetype)], on the suffix
    [pathlib.Path(filepath).suffix] of the path and on what opening the
    file as a workbook would do. *)
Definition _get_file_type (suffix : str) (workbook : probe)
  (filetype : option str) : error + str :=
  match filetype with
  | None =>
      let ext := strip_dots suffix in
      match extension_type extensions ext with
      | Some t => inr t
      | None =>
          match workbook with
          | Opens => inr (of_string "excel")
          | NotExcel => inl (InvalidFileExtension ext)
          | Crashes => inl ProbeCrashed
          end
      end
  | Some t =>
      if negb (contains filetypes t) then inl (InvalidFileType t) else inr t
  end.

(** [is_excel(filepath)]: the [ValueError]s of [_get_file_type] are
    caught. *)
Definition is_excel (filepath : option (str * probe)) : error + bool :=
  match filepath with
  | None => inr false
  | Some (suffix, workbook) =>
      match _get_file_type suffix workbook None with
      | inr t => inr (Py.eqb t (of_string "excel"))
      | inl ProbeCrashed => inl ProbeCrashed
      | inl _ => inr false
      end
  end.

(** [read_headers_from_file(filepath, sheet, filetype)], on what the
    reader of each file type returns; [retval] stays [None] when no
    branch is taken. *)
Definition read_headers_from_file (suffix : str) (workbook : probe)
  (filetype : option str) (xlsx tsv csv : list str)
  : error + option (list str) :=
  match _get_file_type suffix workbook filetype with
  | inl e => inl e
  | inr t =>
      if Py.eqb t (of_string "excel") then inr (Some xlsx)
      else if Py.eqb t (of_string "tsv") then inr (Some tsv)
      else if Py.eqb t (of_string "csv") then inr (Some csv)
      else if Py.eqb t (of_string "yaml") then inl YamlHasNoHeaders
      else inr None
  end.

End FileUtils.

(* ================================================================== *)
(** * bearingstogps.py: the script, with what it prints *)
(* ================================================================== *)

Module Script.

Import Py F64 BearingsUtils BearingsToGps.

(** A line on standard output, kept as the values it is formatted from:
    the header [lon,lat,zero], a coordinate line [{lon},{lat},0], the
    warning of [_check_dtype_arg]. *)
Inductive line :=
| Header
| Coord (lon lat : float)
| Warning (w : FileUtils.warning).

(** What ends the script early: an error on the table before the loop,
    the error of [get_row_val] on a row without the column asked for, or
    an error of the rest of the loop body. *)
Inductive crash :=
| TableError (e : FileUtils.error)
| CellError (e : FileUtils.error)
| RowError (f : failure).

Section Main.

(** [geopy.Point(lat, lon)], its two coordinates, and the geodesic
    destination, from [geopy]. *)
Variable point : Type.
Variable Point : float -> float -> point.
Variables longitude latitude : point -> float.
Variable destination : float -> point -> float -> point.

(** The [for] loop, with the line each iteration prints. *)
Fixpoint run (units : option unit_name) (points : list point)
  (out : list line) (rows : list row) : list line * (failure + list point) :=
  match rows with
  | [] => (out, inr points)
  | r :: rows' =>
      let distance := to_feet units (distance r) in
      match parse_cell (bearing r) with
      | inl e => (out, inl e)
      | inr bearing =>
          match last_point points with
          | None => (out, inl IndexError)
          | Some start_point =>
              let end_point := destination distance start_point bearing in
              run units (points ++ [end_point])
                (out ++ [Coord (longitude end_point) (latitude end_point)])
                rows'
          end
      end
  end.

(** The script from the header check on: [headers] is what
    [read_headers_from_file] returned, [columns] and [rows] are the
    columns and the rows of the dataframe [read_from_file] builds from a
    csv or tsv file, [filepath] is [--infile].  The result is what was
    printed and how the script ended.  A row holds a distance and a
    bearing when the dataframe has both columns; when it lacks one, the
    first [get_row_val] on it raises. *)
Definition main (lower : str -> str) (renders : FileUtils.rendering)
  (units : option unit_name)
  (lon lat : float) (filepath : str) (headers columns : list str)
  (rows : list row) : list line * (crash + list point) :=
  let expected := FileUtils.strs ["bearing"; "distance"]%string in
  if negb (FileUtils.contains headers (of_string "bearing"))
     || negb (FileUtils.contains headers (of_string "distance"))
  then ([], inl (TableError
                  (FileUtils.invalid_headers renders headers expected None None)))
  else
    match FileUtils.validate_headers lower renders filepath headers None with
    | inl e => ([], inl (TableError e))
    | inr _ =>
        match FileUtils._check_dtype_arg renders (Some columns) (Some expected) with
        | inl e => ([], inl (TableError e))
        | inr w =>
            let out := match w with Some w => [Warning w] | None => [] end in
            let points := [Point lat lon] in
            let out := out ++ [Header; Coord lon lat] in
            match rows with
            | [] => (out, inr points)
            | _ :: _ =>
                if negb (FileUtils.contains columns (of_string "distance"))
                then (out, inl (CellError
                        (FileUtils.InvalidDataHeader (of_string "distance") None)))
                else if negb (FileUtils.contains columns (of_string "bearing"))
                then (out, inl (CellError
                        (FileUtils.InvalidDataHeader (of_string "bearing") None)))
                else
                  match run units points out rows with
                  | (out, inl f) => (out, inl (RowError f))
                  | (out, inr points) => (out, inr points)
                  end
            end
        end
    end.

End Main.

End Script.

(* ================================================================== *)
(** * More vocabulary *)
(* ================================================================== *)

Module Words.

Import Py F64 BearingsUtils Spec.

(** Base azimuth and sign for the pairs of initial reference and swing
    direction that are not on one axis. *)
Definition base_and_sign_of (init dir : cardinal) : option (Z * Z) :=
  match init, dir with
  | north, east => Some (0, 1)
  | north, west => Some (0, -1)
  | south, east => Some (180, -1)
  | south, west => Some (180, 1)
  | east, south => Some (90, 1)
  | west, south => Some (270, 1)
  | east, north => Some (360, -1)
  | west, north => Some (360, -1)
  | _, _ => None
  end%Z.

(** The azimuth of the angle in the middle zone of [s], swung from
    [base] with [sign]. *)
Definition azimuth (base sign : Z) (s : str) : result float :=
  d <- component (degrees_run (middle_zone s)) ;;
  m <- component (minutes_run (middle_zone s)) ;;
  sec <- component (seconds_run (middle_zone s)) ;;
  normalized (swung (of_Z base) sign d m sec).

(** The letters N, E, S, W in lower case; any other character as it is. *)
Definition fold_case (c : char) : char :=
  if mem (of_string "NESW") c then (c + 32)%N else c.

(** All characters of a string in a set. *)
Definition all_in (p : char -> bool) (s : str) : bool := forallb p s.

(** A string that is empty or begins with a character that is not a
    cardinal letter. *)
Definition stops_word (t : str) : bool :=
  match t with
  | [] => true
  | c :: _ => not_cardinal_letter c
  end.

(** Two results with the same value, or both a failure. *)
Definition same_value (a b : result float) : Prop :=
  forall r, a = Ok r <-> b = Ok r.

(** A bearing cell that reaches [parse_bearing] after [get_row_val]. *)
Definition blank (s : str) : bool := forallb isspace s.

(** Sorted for [str_leb]. *)
Definition ascending (l : list str) : Prop :=
  Sorted.StronglySorted (fun a b => FileUtils.str_leb a b = true) l.

(** ASCII lower case, one instance of [str.lower]. *)
Definition ascii_lower (s : str) : str :=
  List.map (fun c => if ((65 <=? c) && (c <=? 90))%N then (c + 32)%N else c) s.

(** The two headers the script asks for, and a list that has both. *)
Definition required : list str := FileUtils.strs ["bearing"; "distance"]%string.

Definition has_required (l : list str) : bool :=
  FileUtils.contains l (of_string "bearing")
  && FileUtils.contains l (of_string "distance").

(** The numeric runs of a middle zone as the specification finds them:
    the maximal runs of the characters [+ - . 0-9], left to right,
    wherever they begin.  [cur] is the run being read, last character
    first. *)
Fixpoint scan (cur : str) (in_run : bool) (a : str) : list str :=
  match a with
  | [] => if in_run then [rev cur] else []
  | c :: a' =>
      if numeric c then scan (c :: cur) true a'
      else (if in_run then [rev cur] else []) ++ scan [] false a'
  end.

Definition numeric_runs (a : str) : list str := scan [] false a.

(** The first, second, third numeric run found, empty when absent. *)
Definition run_found (n : nat) (a : str) : str := nth n (numeric_runs a) [].

(** A middle zone that is empty or begins with a numeric character:
    its first numeric run is at its start. *)
Definition starts_with_number (a : str) : bool :=
  match a with
  | [] => true
  | c :: _ => numeric c
  end.

(** The number of distinct strings of a list. *)
Definition count_distinct (l : list str) : nat :=
  List.length (nodup (list_eq_dec N.eq_dec) l).

(** The names without a percent sign, and the rendering that returns
    exactly for them. *)
Definition percent_free (names : list str) : bool :=
  forallb (fun n => negb (mem n 37%N)) names.

Definition plain : FileUtils.rendering :=
  fun _ a b => percent_free a && percent_free b.

(** Headers of a table with a third column, and with [Bearing] for
    [bearing]. *)
Definition plot_headers : list str :=
  FileUtils.strs ["bearing"; "distance"; "comment"]%string.

Definition capital_headers : list str :=
  FileUtils.strs ["Bearing"; "distance"]%string.

(** Stand-ins for [geopy.Point] and its coordinates: a pair. *)
Definition pair_point (lat lon : float) : float * float := (lat, lon).

Definition shift (d : float) (p : float * float) (b : float) : float * float :=
  (add (fst p) d, add (snd p) b).

End Words.

(* ================================================================== *)
(** * Facts about strings and the pattern matcher *)
(* ================================================================== *)

Module StrFacts.

Import Py.

Section Runs.

Variable p : char -> bool.

Lemma firstn_run (s : str) :
  firstn (List.length (take_while p s)) s = take_while p s.
Proof.
  induction s as [|c s IH]; simpl; [reflexivity|].
  destruct (p c); simpl; [now rewrite IH | reflexivity].
Qed.

Lemma skipn_run (s : str) :
  skipn (List.length (take_while p s)) s = drop_while p s.
Proof.
  induction s as [|c s IH]; simpl; [reflexivity|].
  destruct (p c); simpl; [exact IH | reflexivity].
Qed.

Lemma drop_while_head (s : str) c t :
  drop_while p s = c :: t -> p c = false.
Proof.
  induction s as [|a s IH]; simpl; [discriminate|].
  destruct (p a) eqn:E; [exact IH|].
  intros H; injection H as -> _; exact E.
Qed.

Lemma drop_while_idem (s : str) :
  drop_while p (drop_while p s) = drop_while p s.
Proof.
  induction s as [|a s IH]; simpl; [reflexivity|].
  destruct (p a) eqn:E; [exact IH|].
  simpl; now rewrite E.
Qed.

Lemma take_while_all (s : str) : forallb p (take_while p s) = true.
Proof.
  induction s as [|a s IH]; simpl; [reflexivity|].
  destruct (p a) eqn:E; simpl; [now rewrite E, IH | reflexivity].
Qed.

End Runs.

Section Inclusion.

(** Two sets of characters, the first inside the second. *)
Variables sp nc : char -> bool.
Hypothesis sub : forall c, sp c = true -> nc c = true.

Lemma take_after_drop (s : str) :
  take_while nc (drop_while sp s) = drop_while sp (take_while nc s).
Proof.
  induction s as [|c s IH]; simpl; [reflexivity|].
  destruct (sp c) eqn:Es.
  - rewrite (sub Es); simpl; now rewrite Es.
  - simpl. destruct (nc c); simpl; [now rewrite Es | reflexivity].
Qed.

Lemma drop_absorbs (s : str) :
  drop_while nc (drop_while sp s) = drop_while nc s.
Proof.
  induction s as [|c s IH]; simpl; [reflexivity|].
  destruct (sp c) eqn:Es.
  - now rewrite (sub Es).
  - simpl; reflexivity.
Qed.

Lemma drop_after_drop (s : str) :
  drop_while sp (drop_while nc s) = drop_while nc s.
Proof.
  destruct (drop_while nc s) as [|c t] eqn:E; [reflexivity|].
  apply drop_while_head in E. simpl.
  destruct (sp c) eqn:Es; [|reflexivity].
  rewrite (sub Es) in E; discriminate.
Qed.

End Inclusion.

Lemma strip_lstripped (s : str) : strip (drop_while isspace s) = strip s.
Proof. unfold strip, lstrip. now rewrite drop_while_idem. Qed.

Lemma startswith_one (s : str) (c : char) :
  startswith s [c] = match s with a :: _ => (a =? c)%N | [] => false end.
Proof. destruct s; simpl; [reflexivity | apply andb_true_r]. Qed.

End StrFacts.

Module ReFacts.

Import Py Re Spec StrFacts.

Lemma backtrack_first k attempt gs :
  attempt k = Some gs -> backtrack k attempt = Some gs.
Proof. intros H. destruct k; simpl; now rewrite H. Qed.

Lemma search_here r s gs : match_here r s = Some gs -> search r s = Some gs.
Proof. intros H. destruct s; simpl; now rewrite H. Qed.

(** A pattern of starred sets matches wherever it is tried, and every
    star keeps all the characters it can take. *)
Lemma star_only_match (r : regex) :
  Forall star_only r -> forall s, match_here r s = Some (greedy r s).
Proof.
  induction 1 as [|i r Hi _ IH]; intros s; [reflexivity|].
  unfold star_only in Hi. simpl.
  destruct (atom_of i) as [cls|cls] eqn:Ea; [contradiction|].
  apply backtrack_first.
  rewrite firstn_run, skipn_run, IH.
  destruct i; reflexivity.
Qed.

Lemma star_only_search (r : regex) :
  Forall star_only r -> forall s, search r s = Some (greedy r s).
Proof. intros H s. apply search_here, star_only_match, H. Qed.

End ReFacts.

(* ================================================================== *)
(** * The parser, step by step *)
(* ================================================================== *)

Module ParserFacts.

Import Py F64 Re BearingsUtils Spec StrFacts ReFacts.

Lemma mem_cases (chars : str) (c : char) :
  mem chars c = true -> In c chars.
Proof.
  unfold mem. rewrite existsb_exists.
  intros [x [Hin Heq]]. apply N.eqb_eq in Heq. now subst.
Qed.

(** No cardinal letter is white space. *)
Lemma space_not_cardinal (c : char) :
  isspace c = true -> not_cardinal_letter c = true.
Proof.
  intros Hs. unfold not_cardinal_letter.
  destruct (cardinal_letter c) eqn:E; [|reflexivity].
  apply mem_cases in E. simpl in E.
  repeat (destruct E as [E|E]; [subst c; vm_compute in Hs; discriminate|]).
  contradiction.
Qed.

Lemma bearing_pat_stars : Forall star_only bearing_pat.
Proof. repeat constructor. Qed.

Lemma angle_pat_stars : Forall star_only angle_pat.
Proof. repeat constructor. Qed.

(** The groups of [bearing_pat]: the prefix zone, the middle zone up to
    its trailing blanks, the suffix zone. *)
Lemma search_bearing_pat (s : str) :
  exists mid,
    search bearing_pat s = Some [prefix_zone s; mid; suffix_zone s]
    /\ strip mid = middle_zone s.
Proof.
  exists (take_while not_cardinal_letter
            (drop_while isspace (drop_while cardinal_letter s))).
  split.
  - rewrite (star_only_search bearing_pat_stars).
    unfold bearing_pat, prefix_zone, suffix_zone. cbn [greedy atom_of].
    do 3 f_equal.
    rewrite (drop_after_drop _ _ space_not_cardinal).
    now rewrite (drop_absorbs _ _ space_not_cardinal).
  - unfold middle_zone.
    rewrite (take_after_drop _ _ space_not_cardinal).
    apply strip_lstripped.
Qed.

(** The groups of [angle_pat]: the three numeric runs. *)
Lemma search_angle_pat (a : str) :
  search angle_pat a = Some [degrees_run a; minutes_run a; seconds_run a].
Proof. now rewrite (star_only_search angle_pat_stars). Qed.

Lemma starts_begins (s : str) (U l : ascii) :
  starts s (String U EmptyString) (String l EmptyString)
  = begins_with (String U (String l EmptyString)) s.
Proof.
  unfold starts, begins_with, of_string. cbn [list_ascii_of_string List.map].
  rewrite !startswith_one. destruct s as [|c s]; [reflexivity|].
  unfold mem. cbn [existsb]. now rewrite orb_false_r.
Qed.

(** [parse_bearing] is the three steps run on the zones of its input. *)
Lemma parse_bearing_steps (s : str) : parse_bearing s = steps s.
Proof.
  unfold parse_bearing, steps, base_and_sign.
  destruct (search_bearing_pat s) as [mid [-> Hmid]].
  cbn [group nth]. rewrite Hmid, !starts_begins.
  generalize (middle_zone s) as a; intros a.
  rewrite search_angle_pat. cbn [group nth].
  generalize (prefix_zone s) as p, (suffix_zone s) as x; intros p x.
  assert (Hacc : forall base sign,
    bind
      (bearing <-
         (if nonempty (degrees_run a)
          then x0 <- float_of (degrees_run a) ;;
               Ok (add base (mul (of_Z sign) x0))
          else Ok base) ;;
       bearing0 <-
         (if nonempty (minutes_run a)
          then x0 <- float_of (minutes_run a) ;;
               Ok (add bearing (div (mul (of_Z sign) x0) (of_Z 60)))
          else Ok bearing) ;;
       bearing1 <-
         (if nonempty (seconds_run a)
          then x0 <- float_of (seconds_run a) ;;
               Ok (add bearing0 (div (mul (of_Z sign) x0) (of_Z 3600)))
          else Ok bearing0) ;;
       Ok bearing1)
      (fun bearing =>
         if ltb (if ltb bearing (of_Z 0) then add bearing (of_Z 360) else bearing)
                (of_Z 0)
            || ltb (of_Z 360)
                 (if ltb bearing (of_Z 0) then add bearing (of_Z 360) else bearing)
         then Error (InvalidBearingResult
                (if ltb bearing (of_Z 0) then add bearing (of_Z 360) else bearing))
         else Ok (if ltb bearing (of_Z 0) then add bearing (of_Z 360) else bearing))
    = (d <- component (degrees_run a) ;;
       m <- component (minutes_run a) ;;
       sec <- component (seconds_run a) ;;
       normalized (swung base sign d m sec))).
  { intros base sign. unfold component, normalized, adjusted, swung.
    destruct (nonempty (degrees_run a));
      [destruct (float_of (degrees_run a))|]; cbn [bind]; try reflexivity;
    (destruct (nonempty (minutes_run a));
      [destruct (float_of (minutes_run a))|]; cbn [bind]; try reflexivity;
     (destruct (nonempty (seconds_run a));
      [destruct (float_of (seconds_run a))|]; cbn [bind]; reflexivity)). }
  destruct (begins_with "Ee" p); [|destruct (begins_with "Ss" p);
    [|destruct (begins_with "Ww" p)]];
  (destruct (begins_with "Ss" x); [|destruct (begins_with "Nn" x);
    [|destruct (begins_with "Ww" x)]]);
  cbn [cardinal_eqb same_axis north_south andb orb negb bind];
  try reflexivity; apply Hacc.
Qed.

End ParserFacts.

(* ================================================================== *)
(** * Comparisons of floats *)
(* ================================================================== *)

Module FloatFacts.

Import F64.

Lemma compare_cont_flip (m n : positive) :
  Pos.compare_cont Eq n m = CompOpp (Pos.compare_cont Eq m n).
Proof. apply Pos.compare_antisym. Qed.

(** Comparison is antisymmetric wherever it is defined. *)
Lemma SFcompare_flip (x y : float) :
  SFcompare y x = option_map CompOpp (SFcompare x y).
Proof.
  destruct x as [sx|sx| |sx mx ex], y as [sy|sy| |sy my ey];
    try reflexivity;
    try (destruct sx, sy; reflexivity);
    try (destruct sx; reflexivity);
    try (destruct sy; reflexivity).
  unfold SFcompare.
  destruct sx, sy; try reflexivity; cbn [option_map]; f_equal;
    rewrite (Z.compare_antisym ex ey);
    destruct (Z.compare ex ey); cbn [CompOpp]; try reflexivity;
    rewrite (compare_cont_flip mx my);
    destruct (Pos.compare_cont Eq mx my); reflexivity.
Qed.

Lemma SFcompare_defined (x y : float) :
  SFcompare x y = None -> is_nan x = true \/ is_nan y = true.
Proof.
  destruct x as [sx|sx| |sx mx ex], y as [sy|sy| |sy my ey]; cbn;
    intros H; try discriminate H; auto.
Qed.

(** Not below [lo] and not above [hi]: between them, or not a number. *)
Lemma between_or_nan (lo hi x : float) :
  ltb x lo = false -> ltb hi x = false ->
  is_nan lo = false -> is_nan hi = false ->
  is_nan x = true \/ (leb lo x = true /\ leb x hi = true).
Proof.
  unfold ltb, leb, SFltb, SFleb. intros Hlo Hhi Nlo Nhi.
  destruct (is_nan x) eqn:Nx; [left; reflexivity | right].
  split.
  - rewrite (SFcompare_flip x lo).
    destruct (SFcompare x lo) as [[]|] eqn:E; cbn [option_map CompOpp];
      try reflexivity; try discriminate Hlo.
    apply SFcompare_defined in E. destruct E; congruence.
  - rewrite (SFcompare_flip x hi) in Hhi.
    destruct (SFcompare x hi) as [[]|] eqn:E; cbn [option_map CompOpp] in Hhi;
      try reflexivity; try discriminate Hhi.
    apply SFcompare_defined in E. destruct E; congruence.
Qed.

End FloatFacts.

(* ================================================================== *)
(** * The properties *)
(* ================================================================== *)

Import Py F64 Re BearingsUtils BearingsToGps Spec.
Import StrFacts ReFacts ParserFacts FloatFacts.

Local Open Scope Q_scope.

(** C1, as stated, fails: the value returned for [S 46 59 26 E] is within
    1e-3 neither of 180 + 46 + 59/60 + 26/3600 nor of 180.99056. *)
Lemma south_46_59_26_east_is_not_180_99 :
  ~ (exists r,
       parse_bearing (of_string "S 46 59 26 E") = Ok r
       /\ (within (1 # 1000) (180 + 46 + (59 # 60) + (26 # 3600)) r
           \/ within (1 # 1000) (18099056 # 100000) r)).
Proof.
  intros [r [H W]]. vm_compute in H. injection H as <-.
  unfold within in W. cbn [to_Q] in W.
  destruct W as [W|W]; apply Qle_bool_iff in W; vm_compute in W; discriminate.
Qed.

(** C1, amended: [parse_bearing("S 46 59 26 E")] returns a value within
    1e-3 of 180 - (46 + 59/60 + 26/3600) = 133.00944, and a traverse of
    the one record with this bearing and 95 feet is the origin followed by
    the geodesic destination from the origin at that azimuth and 95 feet. *)
Theorem south_46_59_26_east :
  exists r,
    parse_bearing (of_string "S 46 59 26 E") = Ok r
    /\ within (1 # 1000) (180 - (46 + (59 # 60) + (26 # 3600))) r
    /\ within (1 # 1000) (13300944 # 100000) r
    /\ forall (point : Type) (destination : float -> point -> float -> point)
         (origin : point),
         traverse destination (Some feet) origin
           [Row (of_string "S 46 59 26 E") (of_Z 95)]
         = inr [origin; destination (of_Z 95) origin r].
Proof.
  exists (S754_finite false 4679853784662162 (-45)).
  split; [vm_compute; reflexivity|].
  split; [apply Qle_bool_imp_le; vm_compute; reflexivity|].
  split; [apply Qle_bool_imp_le; vm_compute; reflexivity|].
  intros point destination origin. vm_compute. reflexivity.
Qed.

(** C3: [N] and [S] parse to 0.0 and 180.0, but [E] and [W] raise: the
    swing direction left at its default is east, on the axis of the
    initial reference. *)
Theorem single_letters :
  parse_bearing (of_string "N") = Ok (of_Z 0)
  /\ parse_bearing (of_string "S") = Ok (of_Z 180)
  /\ parse_bearing (of_string "E")
     = Error (InvalidCardinals east east (of_string "E"))
  /\ parse_bearing (of_string "W")
     = Error (InvalidCardinals east east (of_string "W")).
Proof. repeat split; vm_compute; reflexivity. Qed.

(** C5: a bearing text whose degrees overflow to +inf and whose minutes
    overflow to -inf is accepted, and the value returned is not a number:
    it is not within [0, 360]. *)
Theorem overflowing_is_nan :
  of_str (degrees_run (middle_zone overflowing)) = Some (S754_infinity false)
  /\ of_str (minutes_run (middle_zone overflowing)) = Some (S754_infinity true)
  /\ parse_bearing overflowing = Ok nan
  /\ in_range nan = false.
Proof. repeat split; vm_compute; reflexivity. Qed.

(** C6: [W 10 S] parses to 280.0, that is 270 + 10: the sign stays +1. *)
Theorem west_10_south :
  parse_bearing (of_string "W 10 S") = Ok (of_Z 280)
  /\ base_and_sign (of_string "W") (of_string "S") = (east, south, of_Z 270, 1%Z).
Proof. split; vm_compute; reflexivity. Qed.

(** C7, as stated, fails: [parse_bearing("north 10 east north")] raises
    nothing. *)
Lemma north_10_east_north_no_error :
  ~ (exists e, parse_bearing (of_string "north 10 east north") = Error e).
Proof. intros [e H]. vm_compute in H. discriminate H. Qed.

(** C7, amended: on [north 10 east north] the pattern stops after the first
    suffix word, the groups are [north], [10 ] and [east], and
    [parse_bearing] returns 10.0. *)
Theorem north_10_east_north :
  search bearing_pat (of_string "north 10 east north")
  = Some [of_string "north"; of_string "10 "; of_string "east"]
  /\ parse_bearing (of_string "north 10 east north") = Ok (of_Z 10).
Proof. split; vm_compute; reflexivity. Qed.

(** C9: [N 0 90 E], whose minutes are 90, is accepted and parses to 1.5. *)
Theorem north_0_90_east :
  parse_bearing (of_string "N 0 90 E") = Ok (decimal false 15 1)
  /\ minutes_run (middle_zone (of_string "N 0 90 E")) = of_string "90".
Proof. split; vm_compute; reflexivity. Qed.

(** ** Failures of the parser *)

Lemma component_error (run : str) (e : exn) :
  component run = Error e -> not_a_number e.
Proof.
  unfold component, float_of.
  destruct (nonempty run); [|discriminate].
  destruct (of_str run); cbn [bind]; [discriminate|].
  intros H; injection H as <-; exact I.
Qed.

Lemma normalized_error (b : float) (e : exn) :
  normalized b = Error e -> out_of_range e.
Proof.
  unfold normalized.
  destruct (ltb (adjusted b) (of_Z 0) || ltb (of_Z 360) (adjusted b))%bool;
    [|discriminate].
  intros H; injection H as <-; exact I.
Qed.

Lemma steps_error (s : str) (e : exn) :
  steps s = Error e ->
  (axis_conflict e /\ same_axis (initial_reference s) (swing_direction s) = true)
  \/ (same_axis (initial_reference s) (swing_direction s) = false
      /\ (not_a_number e \/ out_of_range e)).
Proof.
  unfold steps, base_and_sign, initial_reference, swing_direction.
  set (a := middle_zone s).
  destruct (begins_with "Ee" (prefix_zone s));
    [|destruct (begins_with "Ss" (prefix_zone s));
      [|destruct (begins_with "Ww" (prefix_zone s))]];
  (destruct (begins_with "Ss" (suffix_zone s));
    [|destruct (begins_with "Nn" (suffix_zone s));
      [|destruct (begins_with "Ww" (suffix_zone s))]]);
  cbn [same_axis north_south andb orb negb];
  intros H;
  try (left; injection H as <-; split; [exact I | reflexivity]);
  right; (split; [reflexivity|]);
  (destruct (component (degrees_run a)) as [d|e1] eqn:E1; cbn [bind] in H;
     [|injection H as <-; left; exact (component_error _ E1)]);
  (destruct (component (minutes_run a)) as [m|e2] eqn:E2; cbn [bind] in H;
     [|injection H as <-; left; exact (component_error _ E2)]);
  (destruct (component (seconds_run a)) as [x|e3] eqn:E3; cbn [bind] in H;
     [|injection H as <-; left; exact (component_error _ E3)]);
  right; exact (normalized_error _ H).
Qed.

Lemma steps_conflict (s : str) :
  same_axis (initial_reference s) (swing_direction s) = true ->
  exists init dir, steps s = Error (InvalidCardinals init dir s).
Proof.
  unfold steps, base_and_sign, initial_reference, swing_direction.
  destruct (begins_with "Ee" (prefix_zone s));
    [|destruct (begins_with "Ss" (prefix_zone s));
      [|destruct (begins_with "Ww" (prefix_zone s))]];
  (destruct (begins_with "Ss" (suffix_zone s));
    [|destruct (begins_with "Nn" (suffix_zone s));
      [|destruct (begins_with "Ww" (suffix_zone s))]]);
  cbn [same_axis north_south andb orb negb];
  intros H; try discriminate H; eexists; eexists; reflexivity.
Qed.

(** C4: [parse_bearing] raises the error of the same-axis validation on
    every input whose initial reference and swing direction are both in
    north/south or both in east/west, and raises that error on no other
    input. *)
Theorem same_axis_validation (s : str) :
  (same_axis (initial_reference s) (swing_direction s) = true ->
   exists init dir, parse_bearing s = Error (InvalidCardinals init dir s))
  /\ (same_axis (initial_reference s) (swing_direction s) = false ->
      forall e, parse_bearing s = Error e -> ~ axis_conflict e).
Proof.
  rewrite parse_bearing_steps. split.
  - apply steps_conflict.
  - intros Hax e He.
    destruct (steps_error _ He) as [[_ Ht]|[_ [Hn|Hr]]];
      [congruence| |]; destruct e; cbn in *; tauto.
Qed.

(** The validation at [W 10 E], which it rejects, and at [N 10 E], which
    it lets through. *)
Lemma same_axis_validation_examples :
  (same_axis (initial_reference (of_string "W 10 E"))
     (swing_direction (of_string "W 10 E")) = true
   /\ exists init dir,
        parse_bearing (of_string "W 10 E")
        = Error (InvalidCardinals init dir (of_string "W 10 E")))
  /\ (same_axis (initial_reference (of_string "N 10 E"))
        (swing_direction (of_string "N 10 E")) = false
      /\ forall e, parse_bearing (of_string "N 10 E") = Error e
                   -> ~ axis_conflict e).
Proof.
  split; (split; [vm_compute; reflexivity|]).
  - apply (proj1 (same_axis_validation (of_string "W 10 E"))).
    vm_compute; reflexivity.
  - apply (proj2 (same_axis_validation (of_string "N 10 E"))).
    vm_compute; reflexivity.
Defined.

(** The inputs named with the same-axis rule all raise its error. *)
Example same_axis_inputs :
  Forall (fun t => exists init dir,
            parse_bearing (of_string t)
            = Error (InvalidCardinals init dir (of_string t)))
    ["N 10 N"; "S 10 N"; "E 10 E"; "W 10 W"; "W 10 E"]%string.
Proof. repeat constructor; eexists; eexists; vm_compute; reflexivity. Qed.

(** ** South swinging east *)

Lemma begins_with_in (letters : string) (c : char) (z : str) :
  begins_with letters (c :: z) = true -> In c (of_string letters).
Proof. apply mem_cases. Qed.

Lemma begins_with_split (l1 l2 : string) (z : str) :
  begins_with (l1 ++ l2) z = (begins_with l1 z || begins_with l2 z)%bool.
Proof.
  destruct z as [|c z]; [reflexivity|]. unfold begins_with, mem, of_string.
  induction l1 as [|a l1 IH]; [reflexivity|].
  cbn [append list_ascii_of_string List.map existsb].
  now rewrite IH, orb_assoc.
Qed.

Lemma south_is_not_east (p : str) :
  begins_with "Ss" p = true -> begins_with "Ee" p = false.
Proof.
  destruct p as [|c p]; [discriminate|]. intros H.
  apply begins_with_in in H. cbn in H.
  destruct H as [<-|[<-|[]]]; vm_compute; reflexivity.
Qed.

(** On the groups of [angle_pat]: when the prefix zone begins with S or s
    and the suffix zone is empty or begins with a character other than
    S, s, N, n, W, w, the base is 180 and the sign is -1. *)
Lemma south_swings_east (s : str) :
  begins_with "Ss" (prefix_zone s) = true ->
  begins_with "SsNnWw" (suffix_zone s) = false ->
  parse_bearing s =
    (d <- component (degrees_run (middle_zone s)) ;;
     m <- component (minutes_run (middle_zone s)) ;;
     sec <- component (seconds_run (middle_zone s)) ;;
     normalized (swung (of_Z 180) (-1) d m sec)).
Proof.
  intros Hp Hx. rewrite parse_bearing_steps. unfold steps, base_and_sign.
  rewrite (south_is_not_east _ Hp), Hp.
  change "SsNnWw"%string with ("Ss" ++ ("Nn" ++ "Ww"))%string in Hx.
  rewrite !begins_with_split in Hx.
  apply orb_false_elim in Hx as [-> Hx].
  apply orb_false_elim in Hx as [-> ->].
  reflexivity.
Qed.

(** [S 10 30 E] is 180 - 10 - 30/60 = 169.5. *)
Lemma south_swings_east_example :
  begins_with "Ss" (prefix_zone (of_string "S 10 30 E")) = true
  /\ begins_with "SsNnWw" (suffix_zone (of_string "S 10 30 E")) = false
  /\ parse_bearing (of_string "S 10 30 E") = Ok (decimal false 1695 1).
Proof.
  split; [reflexivity|]. split; [reflexivity|].
  etransitivity.
  - apply (south_swings_east (of_string "S 10 30 E")); reflexivity.
  - vm_compute; reflexivity.
Defined.

(** ** West swinging south *)

Lemma west_is_not_east_or_south (p : str) :
  begins_with "Ww" p = true ->
  begins_with "Ee" p = false /\ begins_with "Ss" p = false.
Proof.
  destruct p as [|c p]; [discriminate|]. intros H.
  apply begins_with_in in H. cbn in H.
  destruct H as [<-|[<-|[]]]; split; vm_compute; reflexivity.
Qed.

(** With a prefix zone that begins with W or w and a suffix zone that
    begins with S or s, the base is 270 and the sign is +1. *)
Lemma west_swings_south (s : str) :
  begins_with "Ww" (prefix_zone s) = true ->
  begins_with "Ss" (suffix_zone s) = true ->
  parse_bearing s =
    (d <- component (degrees_run (middle_zone s)) ;;
     m <- component (minutes_run (middle_zone s)) ;;
     sec <- component (seconds_run (middle_zone s)) ;;
     normalized (swung (of_Z 270) 1 d m sec)).
Proof.
  intros Hp Hx. rewrite parse_bearing_steps. unfold steps, base_and_sign.
  destruct (west_is_not_east_or_south _ Hp) as [-> ->].
  rewrite Hp, Hx. reflexivity.
Qed.

(** ** Range of the result *)

(** X1: An accepted azimuth is within 0 and 360 as floats compare, unless it
    is not a number. *)
Lemma accepted_range (s : str) (r : float) :
  parse_bearing s = Ok r -> is_nan r = true \/ in_range r = true.
Proof.
  rewrite parse_bearing_steps. unfold steps.
  destruct (base_and_sign _ _) as [[[i d] b] sg].
  destruct (same_axis i d); [discriminate|].
  destruct (component (degrees_run _)); cbn [bind]; [|discriminate].
  destruct (component (minutes_run _)); cbn [bind]; [|discriminate].
  destruct (component (seconds_run _)); cbn [bind]; [|discriminate].
  unfold normalized.
  destruct (ltb (adjusted _) (of_Z 0)) eqn:Lo; [discriminate|].
  destruct (ltb (of_Z 360) (adjusted _)) eqn:Hi; [discriminate|].
  cbn [orb]. intros H; injection H as <-.
  destruct (between_or_nan _ _ _ Lo Hi eq_refl eq_refl) as [N|[A B]];
    [left; exact N | right].
  unfold in_range. now rewrite A, B.
Qed.

(** 360 is added once to a negative sum: [N 10 W] parses to 350.0. *)
Example north_10_west :
  parse_bearing (of_string "N 10 W") = Ok (of_Z 350).
Proof. vm_compute; reflexivity. Qed.

(** ** The patterns always match *)

(** C10, as stated, fails: [N 1.2.3 E] raises the error of [float], which
    is neither the same-axis error nor the out-of-range error. *)
Lemma float_error_is_a_third_failure :
  exists e,
    parse_bearing (of_string "N 1.2.3 E") = Error e
    /\ ~ axis_conflict e /\ ~ out_of_range e.
Proof.
  exists (CouldNotConvertToFloat (of_string "1.2.3")).
  split; [vm_compute; reflexivity|]. split; intros H; exact H.
Qed.

(** C10, amended: both searches always find a match, so [parse_bearing]
    never raises one of its two could-not-parse errors; what it can raise
    is the same-axis error, the error of [float] on a numeric run that is
    not a number, and the out-of-range error. *)
Theorem patterns_always_match (s : str) :
  search bearing_pat s <> None
  /\ (forall a, search angle_pat a <> None)
  /\ (forall e, parse_bearing s = Error e ->
        ~ no_match e /\ (axis_conflict e \/ not_a_number e \/ out_of_range e)).
Proof.
  split; [|split].
  - destruct (search_bearing_pat s) as [mid [-> _]]. discriminate.
  - intros a. rewrite search_angle_pat. discriminate.
  - intros e He. rewrite parse_bearing_steps in He.
    destruct (steps_error _ He) as [[Ha _]|[_ [Hn|Hr]]];
      destruct e; cbn in *; tauto.
Qed.

(** [N 400 E] raises the out-of-range error. *)
Lemma patterns_always_match_example :
  parse_bearing (of_string "N 400 E")
  = Error (InvalidBearingResult (of_Z 400))
  /\ ~ no_match (InvalidBearingResult (of_Z 400))
  /\ (axis_conflict (InvalidBearingResult (of_Z 400))
      \/ not_a_number (InvalidBearingResult (of_Z 400))
      \/ out_of_range (InvalidBearingResult (of_Z 400))).
Proof.
  assert (H : parse_bearing (of_string "N 400 E")
              = Error (InvalidBearingResult (of_Z 400)))
    by (vm_compute; reflexivity).
  split; [exact H|].
  exact (proj2 (proj2 (patterns_always_match (of_string "N 400 E"))) _ H).
Defined.

(** ** The traverse *)

Section TraverseFacts.

Variable point : Type.
Variable destination : float -> point -> float -> point.
Variable units : option unit_name.

Lemma last_point_snoc (points : list point) (p : point) :
  last_point (points ++ [p]) = Some p.
Proof. unfold last_point. now rewrite rev_app_distr. Qed.

Lemma to_feet_in_feet (d : float) : to_feet units d = in_feet units d.
Proof. destruct units as [[]|]; reflexivity. Qed.

Lemma parse_cell_parses (r : row) (b : float) :
  parses_to r b -> parse_cell (bearing r) = inr b.
Proof.
  intros [bearing_str [Hg Hp]]. unfold parse_cell. now rewrite Hg, Hp.
Qed.

(** The loop appends one point per row, each the destination of the leg
    that starts at the point before it. *)
Lemma loop_appends (rows : list row) (azimuths : list float) :
  Forall2 parses_to rows azimuths ->
  forall (points : list point) (p0 : point),
    last_point points = Some p0 ->
    exists new,
      loop destination units points rows = inr (points ++ new)
      /\ List.length new = List.length rows
      /\ forall i r b,
           nth_error rows i = Some r -> nth_error azimuths i = Some b ->
           exists p,
             nth_error (p0 :: new) i = Some p
             /\ nth_error (p0 :: new) (S i)
                = Some (destination (in_feet units (distance r)) p b).
Proof.
  induction 1 as [|r b rows azimuths Hr _ IH]; intros points p0 Hlast.
  - exists []. rewrite app_nil_r. repeat split.
    intros [|i] r b H; discriminate H.
  - cbn [loop]. unfold body.
    rewrite (parse_cell_parses Hr), Hlast, to_feet_in_feet.
    set (e := destination (in_feet units (distance r)) p0 b).
    destruct (IH (points ++ [e]) e (last_point_snoc _ _))
      as [new [Hloop [Hlen Hnth]]].
    exists (e :: new). rewrite Hloop, <- app_assoc. split; [reflexivity|].
    split; [cbn; now rewrite Hlen|].
    intros [|i] r' b' Hr' Hb'.
    + cbn in Hr', Hb'. injection Hr' as <-. injection Hb' as <-.
      exists p0. split; reflexivity.
    + cbn [nth_error] in Hr', Hb' |- *. exact (Hnth i r' b' Hr' Hb').
Qed.

End TraverseFacts.

(** C8: when every record parses, the traverse returns n + 1 points for n
    records; the first is the origin and point i + 1 is the geodesic
    destination from point i at the azimuth parsed from record i and at
    its distance in feet (times 16.5 for poles and rods), the records
    taken in their order. *)
Theorem traverse_points (point : Type)
  (destination : float -> point -> float -> point)
  (units : option unit_name) (origin : point)
  (rows : list row) (azimuths : list float) :
  Forall2 parses_to rows azimuths ->
  exists points,
    traverse destination units origin rows = inr points
    /\ List.length points = S (List.length rows)
    /\ nth_error points 0 = Some origin
    /\ forall i r b,
         nth_error rows i = Some r -> nth_error azimuths i = Some b ->
         exists p,
           nth_error points i = Some p
           /\ nth_error points (S i)
              = Some (destination (in_feet units (distance r)) p b).
Proof.
  intros H.
  destruct (loop_appends destination units H [origin] (p0 := origin) eq_refl)
    as [new [Hloop [Hlen Hnth]]].
  exists (origin :: new). unfold traverse. rewrite Hloop.
  split; [reflexivity|]. split; [cbn; now rewrite Hlen|].
  split; [reflexivity | exact Hnth].
Qed.

(** Two records in poles, walked from an empty record of legs. *)
Lemma traverse_points_example :
  Forall2 parses_to two_rows two_azimuths
  /\ exists points,
       traverse walk (Some poles) [] two_rows = inr points
       /\ List.length points = 3%nat
       /\ nth_error points 0 = Some []
       /\ forall i r b,
            nth_error two_rows i = Some r -> nth_error two_azimuths i = Some b ->
            exists p,
              nth_error points i = Some p
              /\ nth_error points (S i)
                 = Some (walk (in_feet (Some poles) (distance r)) p b).
Proof.
  assert (H : Forall2 parses_to two_rows two_azimuths).
  { repeat constructor; eexists; (split; [vm_compute; reflexivity|]);
      vm_compute; reflexivity. }
  split; [exact H|].
  exact (traverse_points walk (Some poles) [] H).
Defined.

(** The distance reaches the geodesic computation unchanged for feet and
    multiplied by 16.5 for poles and rods: ten poles are 165 feet. *)
Example ten_poles :
  in_feet (Some feet) (of_Z 10) = of_Z 10
  /\ in_feet None (of_Z 10) = of_Z 10
  /\ in_feet (Some poles) (of_Z 10) = of_Z 165
  /\ in_feet (Some rods) (of_Z 10) = of_Z 165.
Proof. repeat split; vm_compute; reflexivity. Qed.

(* ================================================================== *)
(** * More on the parser *)
(* ================================================================== *)

Import Words.

(** ** Runs of assembled strings *)

Section Assembled.

Variable p : char -> bool.

Lemma take_while_app (a b : str) :
  forallb p a = true ->
  match b with [] => True | c :: _ => p c = false end ->
  take_while p (a ++ b) = a.
Proof.
  intros Ha Hb. induction a as [|c a IH]; simpl in *.
  - destruct b as [|d b]; [reflexivity|]. simpl. now rewrite Hb.
  - apply andb_prop in Ha as [-> Ha]. now rewrite IH.
Qed.

Lemma drop_while_app (a b : str) :
  forallb p a = true ->
  match b with [] => True | c :: _ => p c = false end ->
  drop_while p (a ++ b) = b.
Proof.
  intros Ha Hb. induction a as [|c a IH]; simpl in *.
  - destruct b as [|d b]; [reflexivity|]. simpl. now rewrite Hb.
  - apply andb_prop in Ha as [-> Ha]. now rewrite IH.
Qed.

Lemma drop_while_all (a : str) : forallb p a = true -> drop_while p a = [].
Proof.
  intros Ha. rewrite <- (app_nil_r a). now apply drop_while_app.
Qed.

Lemma drop_while_snoc (a : str) (c : char) :
  p c = false -> drop_while p (a ++ [c]) = drop_while p a ++ [c].
Proof.
  intros Hc. induction a as [|d a IH]; simpl; [now rewrite Hc|].
  destruct (p d); [exact IH | reflexivity].
Qed.

Lemma forallb_rev (a : str) : forallb p (rev a) = forallb p a.
Proof.
  induction a as [|c a IH]; [reflexivity|]. simpl.
  rewrite forallb_app, IH. simpl. now rewrite andb_true_r, andb_comm.
Qed.

End Assembled.

Lemma not_cardinal_false (c : char) :
  cardinal_letter c = true -> not_cardinal_letter c = false.
Proof. unfold not_cardinal_letter. now intros ->. Qed.

Lemma cardinal_false (c : char) :
  not_cardinal_letter c = true -> cardinal_letter c = false.
Proof. unfold not_cardinal_letter. now destruct (cardinal_letter c). Qed.

(** The zones of a prefix word, a middle, a suffix word and a rest. *)
Lemma zones_assembled (p m x t : str) :
  all_in cardinal_letter p = true ->
  all_in not_cardinal_letter m = true -> m <> [] ->
  all_in cardinal_letter x = true ->
  stops_word t = true -> (x <> [] \/ t = []) ->
  prefix_zone (p ++ m ++ x ++ t) = p
  /\ middle_zone (p ++ m ++ x ++ t) = strip m
  /\ suffix_zone (p ++ m ++ x ++ t) = x.
Proof.
  unfold all_in, stops_word. intros Hp Hm Nm Hx Ht Hxt.
  assert (Sm : match m ++ x ++ t with
               | [] => True | c :: _ => cardinal_letter c = false end).
  { destruct m as [|c m]; [contradiction|]. simpl in *.
    apply andb_prop in Hm as [Hc _]. now apply cardinal_false. }
  assert (Sx : match x ++ t with
               | [] => True | c :: _ => not_cardinal_letter c = false end).
  { destruct x as [|c x]; simpl in *.
    - destruct Hxt as [Hxt| ->]; [now elim Hxt | exact I].
    - apply andb_prop in Hx as [Hc _]. now apply not_cardinal_false. }
  assert (St : match t with
               | [] => True | c :: _ => cardinal_letter c = false end).
  { destruct t as [|c t]; [exact I|]. now apply cardinal_false. }
  unfold prefix_zone, middle_zone, suffix_zone.
  rewrite (take_while_app _ _ _ Hp Sm), (drop_while_app _ _ _ Hp Sm).
  rewrite (take_while_app _ _ _ Hm Sx), (drop_while_app _ _ _ Hm Sx).
  rewrite (take_while_app _ _ _ Hx St). repeat split.
Qed.

(** Two texts with the same middle zone whose prefix and suffix zones
    decode alike parse to the same value. *)
Lemma same_zones_same_value (s s' : str) :
  base_and_sign (prefix_zone s) (suffix_zone s)
  = base_and_sign (prefix_zone s') (suffix_zone s') ->
  middle_zone s = middle_zone s' ->
  same_value (parse_bearing s) (parse_bearing s').
Proof.
  intros Hb Hm r. rewrite !parse_bearing_steps. unfold steps.
  rewrite Hb, Hm. clear Hb Hm.
  destruct (base_and_sign (prefix_zone s') (suffix_zone s')) as [[[i d] b] sg].
  destruct (same_axis i d); [split; intros H; discriminate H | reflexivity].
Qed.

(** ** The table of references and swings *)

(** X2: Every pair of initial reference and swing direction that passes the
    validation has one base azimuth and one sign: north 0, south 180,
    east 90 and west 270 towards south, east and west both 360 towards
    north; the sign is -1 for north to west, south to east and for any
    swing to north. *)
Theorem reference_table (s : str) (base sign : Z) :
  base_and_sign_of (initial_reference s) (swing_direction s) = Some (base, sign) ->
  parse_bearing s = azimuth base sign s.
Proof.
  rewrite parse_bearing_steps.
  unfold steps, base_and_sign, initial_reference, swing_direction, azimuth.
  destruct (begins_with "Ee" (prefix_zone s));
    [|destruct (begins_with "Ss" (prefix_zone s));
      [|destruct (begins_with "Ww" (prefix_zone s))]];
  (destruct (begins_with "Ss" (suffix_zone s));
    [|destruct (begins_with "Nn" (suffix_zone s));
      [|destruct (begins_with "Ww" (suffix_zone s))]]);
  cbn [base_and_sign_of same_axis north_south andb orb negb];
  intros H; try discriminate H; injection H as <- <-; reflexivity.
Qed.

(** [E 10 N] and [W 10 N] both parse to 360 - 10. *)
Lemma reference_table_example :
  (base_and_sign_of (initial_reference (of_string "E 10 N"))
     (swing_direction (of_string "E 10 N")) = Some (360, -1)%Z
   /\ parse_bearing (of_string "E 10 N") = Ok (of_Z 350))
  /\ (base_and_sign_of (initial_reference (of_string "W 10 N"))
        (swing_direction (of_string "W 10 N")) = Some (360, -1)%Z
      /\ parse_bearing (of_string "W 10 N") = Ok (of_Z 350)).
Proof.
  split; (split; [reflexivity|]).
  - etransitivity;
      [apply (@reference_table (of_string "E 10 N") 360 (-1)); reflexivity|].
    vm_compute; reflexivity.
  - etransitivity;
      [apply (@reference_table (of_string "W 10 N") 360 (-1)); reflexivity|].
    vm_compute; reflexivity.
Defined.

(** ** Words and what follows them *)

Lemma fold_case_letter (c c' : char) :
  fold_case c = fold_case c' ->
  mem (of_string "Ee") c = mem (of_string "Ee") c'
  /\ mem (of_string "Ss") c = mem (of_string "Ss") c'
  /\ mem (of_string "Ww") c = mem (of_string "Ww") c'
  /\ mem (of_string "Nn") c = mem (of_string "Nn") c'.
Proof.
  unfold fold_case.
  destruct (mem (of_string "NESW") c) eqn:Ec;
    destruct (mem (of_string "NESW") c') eqn:Ec'; intros H.
  - apply mem_cases in Ec, Ec'. cbn in Ec, Ec'.
    destruct Ec as [<-|[<-|[<-|[<-|[]]]]];
      destruct Ec' as [<-|[<-|[<-|[<-|[]]]]];
      try discriminate H; repeat split.
  - apply mem_cases in Ec. cbn in Ec.
    destruct Ec as [<-|[<-|[<-|[<-|[]]]]]; subst c'; repeat split.
  - apply mem_cases in Ec'. cbn in Ec'.
    destruct Ec' as [<-|[<-|[<-|[<-|[]]]]]; subst c; repeat split.
  - subst c'. repeat split.
Qed.

Lemma base_and_sign_first_letters (c c' d d' : char) (p p' x x' : str) :
  fold_case c = fold_case c' -> fold_case d = fold_case d' ->
  base_and_sign (c :: p) (d :: x) = base_and_sign (c' :: p') (d' :: x').
Proof.
  intros Hc Hd. unfold base_and_sign, begins_with.
  destruct (fold_case_letter _ _ Hc) as [-> [-> [-> _]]].
  destruct (fold_case_letter _ _ Hd) as [_ [-> [-> ->]]].
  reflexivity.
Qed.

(** X3: Of each direction word only the first letter is read, and its case
    does not matter: two texts with the same middle whose words begin
    with the same letters, in either case, parse to the same value. *)
Theorem first_letters_only (c c' d d' : char) (p p' m x x' : str) :
  all_in cardinal_letter (c :: p) = true ->
  all_in cardinal_letter (c' :: p') = true ->
  all_in cardinal_letter (d :: x) = true ->
  all_in cardinal_letter (d' :: x') = true ->
  all_in not_cardinal_letter m = true -> m <> [] ->
  fold_case c = fold_case c' -> fold_case d = fold_case d' ->
  same_value (parse_bearing ((c :: p) ++ m ++ (d :: x)))
             (parse_bearing ((c' :: p') ++ m ++ (d' :: x'))).
Proof.
  intros Hp Hp' Hx Hx' Hm Nm Hc Hd.
  destruct (@zones_assembled (c :: p) m (d :: x) [] Hp Hm Nm Hx eq_refl
              (or_intror eq_refl)) as [Z1 [Z2 Z3]].
  destruct (@zones_assembled (c' :: p') m (d' :: x') [] Hp' Hm Nm Hx' eq_refl
              (or_intror eq_refl)) as [Z1' [Z2' Z3']].
  rewrite !app_nil_r in Z1, Z2, Z3, Z1', Z2', Z3'.
  apply same_zones_same_value.
  - rewrite Z1, Z3, Z1', Z3'. now apply base_and_sign_first_letters.
  - now rewrite Z2, Z2'.
Qed.

(** [south 46 59 26 east] is [S 46 59 26 E]. *)
Lemma first_letters_only_example :
  same_value (parse_bearing (of_string "south 46 59 26 east"))
             (parse_bearing (of_string "S 46 59 26 E"))
  /\ parse_bearing (of_string "south 46 59 26 east")
     = parse_bearing (of_string "S 46 59 26 E").
Proof.
  split; [|vm_compute; reflexivity].
  apply (@first_letters_only 115%N 83%N 101%N 69%N (of_string "outh") []
           (of_string " 46 59 26 ") (of_string "ast") []);
    try reflexivity.
  discriminate.
Defined.

(** X4: What follows the suffix word is never read: a text parses to the
    same value with and without anything appended after its suffix word
    that does not begin with a cardinal letter. *)
Theorem rest_is_ignored (p m x t : str) :
  all_in cardinal_letter p = true ->
  all_in not_cardinal_letter m = true -> m <> [] ->
  all_in cardinal_letter x = true -> x <> [] ->
  stops_word t = true ->
  same_value (parse_bearing (p ++ m ++ x ++ t)) (parse_bearing (p ++ m ++ x)).
Proof.
  intros Hp Hm Nm Hx Nx Ht.
  destruct (@zones_assembled p m x t Hp Hm Nm Hx Ht (or_introl Nx))
    as [Z1 [Z2 Z3]].
  destruct (@zones_assembled p m x [] Hp Hm Nm Hx eq_refl (or_intror eq_refl))
    as [Z1' [Z2' Z3']].
  rewrite !app_nil_r in Z1', Z2', Z3'.
  apply same_zones_same_value.
  - now rewrite Z1, Z3, Z1', Z3'.
  - now rewrite Z2, Z2'.
Qed.

(** [N 10 E, then 20 W] is [N 10 E]. *)
Lemma rest_is_ignored_example :
  same_value (parse_bearing (of_string "N 10 E, then 20 W"))
             (parse_bearing (of_string "N 10 E"))
  /\ parse_bearing (of_string "N 10 E, then 20 W") = Ok (of_Z 10).
Proof.
  split; [|vm_compute; reflexivity].
  apply (@rest_is_ignored (of_string "N") (of_string " 10 ") (of_string "E")
           (of_string ", then 20 W")); try reflexivity; discriminate.
Defined.

(** ** Blanks before the first word, and no angle at all *)

Lemma take_drop (p : char -> bool) (s : str) :
  take_while p s ++ drop_while p s = s.
Proof.
  induction s as [|c s IH]; [reflexivity|]. simpl.
  destruct (p c); simpl; [now rewrite IH | reflexivity].
Qed.

Lemma forallb_imp (p q : char -> bool) (s : str) :
  (forall c, p c = true -> q c = true) ->
  forallb p s = true -> forallb q s = true.
Proof.
  intros Hpq. induction s as [|c s IH]; [reflexivity|]. simpl.
  intros H. apply andb_prop in H as [Hc Hs]. now rewrite (Hpq _ Hc), IH.
Qed.

Lemma strip_blank (ws : str) : blank ws = true -> strip ws = [].
Proof.
  intros H. unfold strip, lstrip, rstrip.
  now rewrite (drop_while_all _ _ H).
Qed.

Lemma stops_after_word (t : str) :
  stops_word (drop_while cardinal_letter t) = true.
Proof.
  unfold stops_word. destruct (drop_while cardinal_letter t) as [|c u] eqn:E;
    [reflexivity|].
  apply drop_while_head in E. unfold not_cardinal_letter. now rewrite E.
Qed.

(** Case analysis on the first letters of the two words. *)
Ltac by_letters p x :=
  destruct (begins_with "Ee" p);
    [|destruct (begins_with "Ss" p); [|destruct (begins_with "Ww" p)]];
  (destruct (begins_with "Ss" x);
    [|destruct (begins_with "Nn" x); [|destruct (begins_with "Ww" x)]]).

(** X5: A text that begins with blanks and then a cardinal letter loses its
    angle: the letter is read as the swing direction of an empty angle
    from north, so the parser raises the same-axis error when the letter
    is N, n, S or s and returns 0.0 otherwise, whatever follows. *)
Theorem blank_before_word (ws t : str) (c : char) :
  ws <> [] -> blank ws = true -> cardinal_letter c = true ->
  parse_bearing (ws ++ c :: t)
  = if mem (of_string "Ss") c
    then Error (InvalidCardinals north south (ws ++ c :: t))
    else if mem (of_string "Nn") c
    then Error (InvalidCardinals north north (ws ++ c :: t))
    else Ok (of_Z 0).
Proof.
  intros Nw Hw Hc.
  set (x := take_while cardinal_letter (c :: t)).
  set (u := drop_while cardinal_letter (c :: t)).
  assert (Hx : x = c :: take_while cardinal_letter t)
    by (unfold x; simpl; now rewrite Hc).
  assert (Hs : ws ++ c :: t = [] ++ ws ++ x ++ u)
    by (unfold x, u; now rewrite take_drop).
  assert (Nx : x <> []) by (rewrite Hx; discriminate).
  destruct (@zones_assembled [] ws x u eq_refl
              (forallb_imp _ _ ws space_not_cardinal Hw) Nw
              (take_while_all _ _) (stops_after_word _) (or_introl Nx))
    as [Z1 [Z2 Z3]].
  rewrite <- Hs in Z1, Z2, Z3.
  rewrite parse_bearing_steps. unfold steps, base_and_sign.
  rewrite Z1, Z2, Z3, Hx, (strip_blank _ Hw).
  unfold begins_with at 1 2 3. cbn [begins_with].
  destruct (mem (of_string "Ss") c); [reflexivity|].
  destruct (mem (of_string "Nn") c); [reflexivity|].
  destruct (mem (of_string "Ww") c); vm_compute; reflexivity.
Qed.

(** [ W 45 S], with one blank in front, parses to 0.0. *)
Lemma blank_before_word_example :
  [32%N] <> [] /\ blank [32%N] = true /\ cardinal_letter 87%N = true
  /\ parse_bearing (of_string " W 45 S") = Ok (of_Z 0).
Proof.
  split; [discriminate|]. split; [reflexivity|]. split; [reflexivity|].
  apply (@blank_before_word [32%N] (of_string " 45 S") 87%N);
    [discriminate | reflexivity | reflexivity].
Defined.

Lemma no_numeric_runs (a : str) :
  all_in not_numeric a = true ->
  degrees_run a = [] /\ minutes_run a = [] /\ seconds_run a = [].
Proof.
  intros H. unfold degrees_run, minutes_run, seconds_run, after_run.
  assert (T : take_while numeric a = []).
  { destruct a as [|c a]; [reflexivity|]. simpl in *.
    apply andb_prop in H as [Hc _]. unfold not_numeric in Hc.
    now destruct (numeric c). }
  assert (D : drop_while numeric a = a).
  { destruct a as [|c a]; [reflexivity|]. simpl in *.
    apply andb_prop in H as [Hc _]. unfold not_numeric in Hc.
    now destruct (numeric c). }
  rewrite T, D, (drop_while_all _ _ H). repeat split.
Qed.

(** X6: A text with no number between its words parses to the base azimuth
    of its initial reference: due north is 0.0, due south 180.0, and the
    pairs with an east or west reference give 90.0, 270.0 or 360.0. *)
Theorem no_angle_is_base (s : str) (base sign : Z) :
  all_in not_numeric (middle_zone s) = true ->
  base_and_sign_of (initial_reference s) (swing_direction s) = Some (base, sign) ->
  parse_bearing s = Ok (of_Z base).
Proof.
  intros Hm. destruct (no_numeric_runs _ Hm) as [D [M S]].
  rewrite parse_bearing_steps.
  unfold steps, base_and_sign, initial_reference, swing_direction.
  rewrite D, M, S.
  by_letters (prefix_zone s) (suffix_zone s);
  cbn [base_and_sign_of same_axis north_south andb orb negb];
  intros H; try discriminate H; injection H as <- <-;
  vm_compute; reflexivity.
Qed.

(** [south, by west] is due south: 180.0. *)
Lemma no_angle_is_base_example :
  all_in not_numeric (middle_zone (of_string "south, by west")) = true
  /\ base_and_sign_of (initial_reference (of_string "south, by west"))
       (swing_direction (of_string "south, by west")) = Some (180, 1)%Z
  /\ parse_bearing (of_string "south, by west") = Ok (of_Z 180).
Proof.
  split; [reflexivity|]. split; [reflexivity|].
  apply (@no_angle_is_base (of_string "south, by west") 180 1); reflexivity.
Defined.

(** [N 10 W] is accepted with an azimuth within 0 and 360. *)
Lemma accepted_range_example :
  parse_bearing (of_string "N 10 W") = Ok (of_Z 350)
  /\ (is_nan (of_Z 350) = true \/ in_range (of_Z 350) = true).
Proof.
  assert (H : parse_bearing (of_string "N 10 W") = Ok (of_Z 350))
    by (vm_compute; reflexivity).
  split; [exact H | exact (accepted_range _ H)].
Defined.

(* ================================================================== *)
(** * Cells of the table *)
(* ================================================================== *)

Lemma eqb_eq (s t : str) : Py.eqb s t = true <-> s = t.
Proof.
  revert t. induction s as [|c s IH]; intros [|d t]; simpl;
    try (split; [discriminate | discriminate]); [tauto|].
  rewrite andb_true_iff, N.eqb_eq, IH. split.
  - intros [-> ->]; reflexivity.
  - intros H; injection H as -> ->; auto.
Qed.

Section Strip.

Variable p : char -> bool.

Lemma drop_while_skip (a b : str) :
  forallb p a = true -> drop_while p (a ++ b) = drop_while p b.
Proof.
  induction a as [|c a IH]; [reflexivity|]. simpl.
  intros H. apply andb_prop in H as [-> H]. now apply IH.
Qed.

Lemma drop_while_keep (a b : str) :
  drop_while p a <> [] -> drop_while p (a ++ b) = drop_while p a ++ b.
Proof.
  induction a as [|c a IH]; simpl; [intros H; now elim H|].
  destruct (p c); [exact IH | reflexivity].
Qed.

Lemma drop_while_nil (a : str) : drop_while p a = [] -> forallb p a = true.
Proof.
  induction a as [|c a IH]; [reflexivity|]. simpl.
  destruct (p c); [exact IH | discriminate].
Qed.

End Strip.

Lemma rstrip_blank_after (y ws : str) :
  blank ws = true -> rstrip (y ++ ws) = rstrip y.
Proof.
  intros H. unfold rstrip. rewrite rev_app_distr.
  rewrite drop_while_skip; [reflexivity|]. now rewrite forallb_rev.
Qed.

(** Blanks around a text do not change what [strip] returns. *)
Lemma strip_around (ws c ws' : str) :
  blank ws = true -> blank ws' = true -> strip (ws ++ c ++ ws') = strip c.
Proof.
  intros Hw Hw'. unfold strip, lstrip.
  rewrite (drop_while_skip _ _ _ Hw). unfold blank in Hw'.
  destruct (drop_while isspace c) as [|a y] eqn:E.
  - apply drop_while_nil in E.
    rewrite drop_while_all; [reflexivity|].
    rewrite forallb_app. now rewrite E, Hw'.
  - rewrite drop_while_keep by (rewrite E; discriminate).
    rewrite E. now apply rstrip_blank_after.
Qed.

(** [strip] removes all it can: stripping twice is stripping once. *)
Lemma strip_idem (s : str) : strip (strip s) = strip s.
Proof.
  unfold strip, lstrip. destruct (drop_while isspace s) as [|a y] eqn:E;
    [reflexivity|].
  apply drop_while_head in E.
  assert (R : rstrip (a :: y) = a :: rev (drop_while isspace (rev y))).
  { unfold rstrip. simpl. rewrite (drop_while_snoc _ _ _ E).
    now rewrite rev_app_distr. }
  rewrite R. simpl. rewrite E. rewrite <- R.
  unfold rstrip. rewrite rev_involutive, drop_while_idem. reflexivity.
Qed.

(** X7: The loop stops with a [TypeError] exactly on the bearing cells that
    are blank or hold the text nan between blanks: for those
    [get_row_val] returns [None], which [re.search] cannot take. *)
Theorem blank_cell_type_error (cell : str) :
  parse_cell cell = inl TypeError
  <-> strip cell = [] \/ strip cell = of_string "nan".
Proof.
  unfold parse_cell, BearingsToGps.get_row_val.
  destruct (strip cell) as [|c v] eqn:E.
  - simpl. split; [now left | reflexivity].
  - cbn [nonempty andb].
    destruct (Py.eqb (c :: v) (of_string "nan")) eqn:N; cbn [negb].
    + apply eqb_eq in N. split; [now right | reflexivity].
    + split.
      * destruct (parse_bearing (c :: v)); discriminate.
      * intros [H|H]; [discriminate H|].
        apply eqb_eq in H. congruence.
Qed.

(** X8: Blanks around a bearing cell do not reach the parser: the loop
    parses the cell as it parses the text between them. *)
Theorem blanks_around_cell (ws cell ws' : str) :
  blank ws = true -> blank ws' = true ->
  parse_cell (ws ++ cell ++ ws') = parse_cell cell.
Proof.
  intros Hw Hw'. unfold parse_cell, BearingsToGps.get_row_val.
  now rewrite (strip_around _ cell _ Hw Hw').
Qed.

(** In a cell [ W 45 S] is [W 45 S]; handed to the parser as it is, it is
    not. *)
Lemma blanks_around_cell_example :
  blank (of_string " ") = true /\ blank (of_string "  ") = true
  /\ parse_cell (of_string " W 45 S  ") = parse_cell (of_string "W 45 S")
  /\ parse_cell (of_string " W 45 S  ") = inr (of_Z 315).
Proof.
  split; [reflexivity|]. split; [reflexivity|].
  split; [|vm_compute; reflexivity].
  apply (@blanks_around_cell (of_string " ") (of_string "W 45 S")
           (of_string "  ")); reflexivity.
Defined.

(** X9: With [strip=True] a text [get_row_val] returns is the stripped text
    of the cell under the header, is neither empty nor the text nan, and
    has no blank left at either end. *)
Theorem get_row_val_text (row : FileUtils.series) (header : str)
  (all_headers : option (list str)) (s : str) :
  FileUtils.get_row_val row header true all_headers = inr (FileUtils.VStr s) ->
  (exists cell,
     FileUtils.lookup row header = Some (FileUtils.VStr cell) /\ s = strip cell)
  /\ s <> [] /\ s <> of_string "nan" /\ strip s = s.
Proof.
  unfold FileUtils.get_row_val.
  destruct (FileUtils.lookup row header) as [[cell|x|]|]; try discriminate.
  destruct (FileUtils.contains FileUtils.none_vals (strip cell)) eqn:C;
    [discriminate|].
  intros H; injection H as <-.
  unfold FileUtils.contains, FileUtils.none_vals in C. cbn [existsb] in C.
  apply orb_false_elim in C as [C1 C2].
  apply orb_false_elim in C2 as [C2 _].
  split; [exists cell; split; reflexivity|].
  split; [intros E; rewrite E in C1; discriminate C1|].
  split; [intros E; rewrite E in C2; discriminate C2|].
  apply strip_idem.
Qed.

(** A row with a padded bearing and a number. *)
Lemma get_row_val_text_example :
  FileUtils.get_row_val
    [(of_string "bearing", FileUtils.VStr (of_string "  S 10 E "));
     (of_string "distance", FileUtils.VFloat (of_Z 95))]
    (of_string "bearing") true None
  = inr (FileUtils.VStr (of_string "S 10 E"))
  /\ of_string "S 10 E" <> [] /\ strip (of_string "S 10 E") = of_string "S 10 E".
Proof.
  assert (H : FileUtils.get_row_val
    [(of_string "bearing", FileUtils.VStr (of_string "  S 10 E "));
     (of_string "distance", FileUtils.VFloat (of_Z 95))]
    (of_string "bearing") true None
    = inr (FileUtils.VStr (of_string "S 10 E"))) by (vm_compute; reflexivity).
  split; [exact H|].
  destruct (get_row_val_text _ _ _ H) as [_ [N [_ S]]]. split; assumption.
Defined.

(* ================================================================== *)
(** * The headers of the table *)
(* ================================================================== *)

Lemma contains_In (l : list str) (x : str) :
  FileUtils.contains l x = true <-> In x l.
Proof.
  unfold FileUtils.contains. rewrite existsb_exists. split.
  - intros [y [Hin He]]. apply eqb_eq in He. now subst.
  - intros Hin. exists x. split; [exact Hin | now apply eqb_eq].
Qed.

Lemma contains_not_In (l : list str) (x : str) :
  FileUtils.contains l x = false <-> ~ In x l.
Proof.
  rewrite <- contains_In. destruct (FileUtils.contains l x); split;
    congruence.
Qed.

(** What [dict.fromkeys] keeps, started from the keys [acc]. *)
Lemma fromkeys_length (l acc : list str) :
  (List.length (fold_left
     (fun keys h => if FileUtils.contains keys h then keys else keys ++ [h])
     l acc) <= List.length acc + List.length l)%nat
  /\ (List.length (fold_left
         (fun keys h => if FileUtils.contains keys h then keys else keys ++ [h])
         l acc) = (List.length acc + List.length l)%nat
      <-> NoDup l /\ forall x, In x l -> ~ In x acc).
Proof.
  revert acc. induction l as [|h t IH]; intros acc; cbn [fold_left List.length].
  - split; [lia|]. split; [intros _; split; [constructor | intros x []] | lia].
  - destruct (FileUtils.contains acc h) eqn:C.
    + destruct (IH acc) as [Hle _]. split; [lia|]. split; [lia|].
      intros [_ Hd]. apply contains_In in C. elim (Hd h (or_introl eq_refl) C).
    + destruct (IH (acc ++ [h])) as [Hle Hiff].
      rewrite length_app in Hle, Hiff. cbn [List.length] in Hle, Hiff.
      apply contains_not_In in C.
      split; [lia|]. split.
      * intros Hlen. assert (Hlen' : List.length (fold_left
          (fun keys h0 => if FileUtils.contains keys h0 then keys else keys ++ [h0])
          t (acc ++ [h])) = (List.length acc + 1 + List.length t)%nat) by lia.
        apply Hiff in Hlen' as [Nt Hd]. split.
        -- constructor; [|exact Nt]. intros Hin.
           apply (Hd h Hin). apply in_or_app. right. now left.
        -- intros x [<-|Hx]; [exact C|]. intros Ha.
           apply (Hd x Hx). apply in_or_app. now left.
      * intros [Nd Hd]. inversion Nd as [|? ? Nh Nt]; subst.
        assert (Hlen' : List.length (fold_left
          (fun keys h0 => if FileUtils.contains keys h0 then keys else keys ++ [h0])
          t (acc ++ [h])) = (List.length acc + 1 + List.length t)%nat);
          [|lia].
        apply Hiff. split; [exact Nt|].
        intros x Hx Hin. apply in_app_or in Hin as [Ha|[<-|[]]].
        -- exact (Hd x (or_intror Hx) Ha).
        -- exact (Nh Hx).
Qed.

(** The keys [dict.fromkeys] keeps are distinct and are the keys it had
    with the strings it was given. *)
Lemma fromkeys_set (l acc : list str) :
  NoDup acc ->
  NoDup (fold_left
     (fun keys h => if FileUtils.contains keys h then keys else keys ++ [h])
     l acc)
  /\ forall x,
       In x (fold_left
         (fun keys h => if FileUtils.contains keys h then keys else keys ++ [h])
         l acc)
       <-> In x acc \/ In x l.
Proof.
  revert acc. induction l as [|h t IH]; intros acc Na; cbn [fold_left].
  - split; [exact Na|]. intros x. simpl. tauto.
  - destruct (FileUtils.contains acc h) eqn:C.
    + apply contains_In in C. destruct (IH acc Na) as [N I].
      split; [exact N|]. intros x. rewrite I. simpl. split.
      * tauto.
      * intros [H|[<-|H]]; tauto.
    + apply contains_not_In in C.
      assert (Na' : NoDup (acc ++ [h])).
      { apply (Permutation_NoDup (l := h :: acc)).
        - apply Permutation_cons_append.
        - now constructor. }
      destruct (IH (acc ++ [h]) Na') as [N I].
      split; [exact N|]. intros x. rewrite I, in_app_iff. simpl. tauto.
Qed.

Lemma fromkeys_count (headers : list str) :
  List.length (FileUtils.fromkeys headers) = count_distinct headers.
Proof.
  unfold count_distinct, FileUtils.fromkeys.
  destruct (@fromkeys_set headers [] (NoDup_nil _)) as [N I].
  apply Permutation_length, NoDup_Permutation;
    [exact N | apply NoDup_nodup|].
  intros x. rewrite I, nodup_In. simpl. tauto.
Qed.

(** X10: [_headers_are_not_unique] returns the flag, the number of
    distinct headers and the number of headers; there are at most as
    many distinct headers as headers, and the flag is raised exactly
    when some header occurs twice. *)
Theorem headers_not_unique (headers : list str) :
  FileUtils._headers_are_not_unique headers
  = (negb (count_distinct headers =? List.length headers)%nat,
     count_distinct headers, List.length headers)
  /\ (count_distinct headers <= List.length headers)%nat
  /\ (fst (fst (FileUtils._headers_are_not_unique headers)) = true
      <-> ~ NoDup headers).
Proof.
  destruct (fromkeys_length headers []) as [Hle Hiff].
  cbn [List.length Nat.add] in Hle, Hiff.
  fold (FileUtils.fromkeys headers) in Hle, Hiff.
  rewrite fromkeys_count in Hle, Hiff.
  assert (E : FileUtils._headers_are_not_unique headers
    = (negb (count_distinct headers =? List.length headers)%nat,
       count_distinct headers, List.length headers)).
  { unfold FileUtils._headers_are_not_unique. rewrite fromkeys_count.
    now destruct (count_distinct headers =? List.length headers)%nat. }
  split; [exact E|]. split; [exact Hle|].
  rewrite E. cbn [fst]. rewrite negb_true_iff, Nat.eqb_neq, Hiff.
  split.
  - intros H N. apply H. split; [exact N | intros x _ []].
  - intros H [N _]. exact (H N).
Qed.

(** Two [bearing] among three headers: two distinct headers, and the
    flag. *)
Lemma headers_not_unique_example :
  FileUtils._headers_are_not_unique
    (FileUtils.strs ["bearing"; "distance"; "bearing"]%string)
  = (true, 2%nat, 3%nat).
Proof.
  etransitivity.
  - exact (proj1 (headers_not_unique
             (FileUtils.strs ["bearing"; "distance"; "bearing"]%string))).
  - vm_compute. reflexivity.
Defined.

(** ** The order of strings and [sorted] *)

Lemma str_leb_total (s t : str) :
  FileUtils.str_leb s t = true \/ FileUtils.str_leb t s = true.
Proof.
  revert t. induction s as [|c s IH]; intros [|d t]; simpl; auto.
  destruct (N.compare_spec c d) as [->|H|H].
  - rewrite N.eqb_refl, N.ltb_irrefl. simpl. apply IH.
  - left. apply N.ltb_lt in H. now rewrite H.
  - right. apply N.ltb_lt in H. now rewrite H.
Qed.

Lemma str_leb_antisym (s t : str) :
  FileUtils.str_leb s t = true -> FileUtils.str_leb t s = true -> s = t.
Proof.
  revert t. induction s as [|c s IH]; intros [|d t]; simpl;
    try discriminate; [reflexivity|].
  intros H1 H2.
  apply orb_prop in H1 as [H1|H1]; apply orb_prop in H2 as [H2|H2].
  - apply N.ltb_lt in H1, H2. lia.
  - apply N.ltb_lt in H1. apply andb_prop in H2 as [H2 _].
    apply N.eqb_eq in H2. lia.
  - apply N.ltb_lt in H2. apply andb_prop in H1 as [H1 _].
    apply N.eqb_eq in H1. lia.
  - apply andb_prop in H1 as [E H1]. apply andb_prop in H2 as [_ H2].
    apply N.eqb_eq in E. subst. f_equal. now apply IH.
Qed.

Lemma str_leb_trans (s t u : str) :
  FileUtils.str_leb s t = true -> FileUtils.str_leb t u = true ->
  FileUtils.str_leb s u = true.
Proof.
  revert t u. induction s as [|c s IH]; intros [|d t] [|e u]; simpl;
    try discriminate; try reflexivity.
  intros H1 H2.
  apply orb_prop in H1 as [H1|H1]; apply orb_prop in H2 as [H2|H2].
  - apply N.ltb_lt in H1, H2.
    assert (H : (c <? e)%N = true) by (apply N.ltb_lt; lia). now rewrite H.
  - apply N.ltb_lt in H1. apply andb_prop in H2 as [H2 _].
    apply N.eqb_eq in H2. subst.
    apply N.ltb_lt in H1. now rewrite H1.
  - apply N.ltb_lt in H2. apply andb_prop in H1 as [H1 _].
    apply N.eqb_eq in H1. subst.
    apply N.ltb_lt in H2. now rewrite H2.
  - apply andb_prop in H1 as [E1 H1]. apply andb_prop in H2 as [E2 H2].
    apply N.eqb_eq in E1, E2. subst. rewrite N.eqb_refl. simpl.
    rewrite (IH _ _ H1 H2). apply orb_true_r.
Qed.

Lemma insert_sorted_perm (x : str) (l : list str) :
  Permutation (FileUtils.insert_sorted x l) (x :: l).
Proof.
  induction l as [|y l IH]; simpl; [reflexivity|].
  destruct (FileUtils.str_leb x y); [reflexivity|].
  rewrite IH. apply perm_swap.
Qed.

Lemma sorted_perm (l : list str) : Permutation (FileUtils.sorted l) l.
Proof.
  induction l as [|x l IH]; simpl; [reflexivity|].
  rewrite insert_sorted_perm. now constructor.
Qed.

Lemma insert_sorted_ascending (x : str) (l : list str) :
  ascending l -> ascending (FileUtils.insert_sorted x l).
Proof.
  unfold ascending. induction 1 as [|y l Hl IH Hy]; simpl.
  - constructor; constructor.
  - destruct (FileUtils.str_leb x y) eqn:E.
    + constructor; [constructor; assumption|].
      constructor; [exact E|].
      eapply Forall_impl; [|exact Hy].
      intros z Hz. now apply (str_leb_trans _ _ _ E).
    + constructor; [exact IH|].
      apply (Permutation_Forall (Permutation_sym (insert_sorted_perm x l))).
      constructor; [|exact Hy].
      destruct (str_leb_total x y) as [H|H]; congruence.
Qed.

Lemma sorted_ascending (l : list str) : ascending (FileUtils.sorted l).
Proof.
  induction l as [|x l IH]; simpl; [constructor|].
  now apply insert_sorted_ascending.
Qed.

(** An ascending list is determined by its elements. *)
Lemma ascending_unique (a b : list str) :
  ascending a -> ascending b -> Permutation a b -> a = b.
Proof.
  unfold ascending. intros Ha. revert b.
  induction Ha as [|x a Ha IH Hx]; intros b Hb P.
  - apply Permutation_nil in P. now subst.
  - destruct Hb as [|y b Hb Hy].
    + symmetry in P. apply Permutation_nil in P. discriminate.
    + assert (E : x = y).
      { apply str_leb_antisym.
        - assert (I : In y (x :: a))
            by (apply (Permutation_in _ (Permutation_sym P)); now left).
          destruct I as [->|I]; [|exact (proj1 (Forall_forall _ _) Hx _ I)].
          destruct (str_leb_total y y); assumption.
        - assert (I : In x (y :: b))
            by (apply (Permutation_in _ P); now left).
          destruct I as [->|I]; [|exact (proj1 (Forall_forall _ _) Hy _ I)].
          destruct (str_leb_total x x); assumption. }
      subst y. f_equal. apply IH; [exact Hb|].
      now apply Permutation_cons_inv in P.
Qed.

Lemma list_eqb_eq (a b : list str) : FileUtils.list_eqb a b = true <-> a = b.
Proof.
  revert b. induction a as [|x a IH]; intros [|y b]; simpl;
    try (split; discriminate); [tauto|].
  rewrite andb_true_iff, eqb_eq, IH. split.
  - intros [-> ->]; reflexivity.
  - intros H; injection H as -> ->; auto.
Qed.

(** Two lists sort to the same list exactly when one is the other
    reordered. *)
Lemma sorted_eq_perm (a b : list str) :
  FileUtils.sorted a = FileUtils.sorted b <-> Permutation a b.
Proof.
  split.
  - intros E. rewrite <- (sorted_perm a), <- (sorted_perm b). now rewrite E.
  - intros P. apply ascending_unique; try apply sorted_ascending.
    now rewrite !sorted_perm.
Qed.

(** ** Checks on the headers *)

Lemma as_expected_perm (lower : str -> str) (expected headers : list str) :
  FileUtils.headers_are_as_expected lower expected headers = true
  <-> Permutation (List.map lower headers) (List.map lower expected).
Proof.
  unfold FileUtils.headers_are_as_expected.
  now rewrite list_eqb_eq, sorted_eq_perm.
Qed.

(** X11: [headers_are_as_expected] holds exactly when the lower-cased
    headers are the lower-cased expected ones in some order: a header
    too many or twice makes it false as a header too few does, so it
    never holds for lists of different lengths. *)
Theorem headers_as_expected (lower : str -> str) (expected headers : list str) :
  (FileUtils.headers_are_as_expected lower expected headers = true
   <-> Permutation (List.map lower headers) (List.map lower expected))
  /\ (List.length headers <> List.length expected ->
      FileUtils.headers_are_as_expected lower expected headers = false).
Proof.
  split; [apply as_expected_perm|].
  intros H. apply not_true_is_false. intros T.
  apply as_expected_perm, Permutation_length in T.
  rewrite !length_map in T. contradiction.
Qed.

(** One column more than expected. *)
Lemma headers_as_expected_example :
  List.length plot_headers <> List.length required
  /\ FileUtils.headers_are_as_expected ascii_lower required plot_headers = false.
Proof.
  assert (H : List.length plot_headers <> List.length required)
    by discriminate.
  split; [exact H|].
  exact (proj2 (headers_as_expected ascii_lower required plot_headers) H).
Defined.

Lemma not_unique_flag (headers : list str) :
  fst (fst (FileUtils._headers_are_not_unique headers)) = false
  <-> NoDup headers.
Proof.
  unfold FileUtils._headers_are_not_unique.
  destruct (fromkeys_length headers []) as [_ Hiff].
  cbn [List.length Nat.add] in Hiff. fold (FileUtils.fromkeys headers) in Hiff.
  destruct (List.length (FileUtils.fromkeys headers) =? List.length headers)%nat
    eqn:E; cbn [negb fst].
  - apply Nat.eqb_eq in E. split; [intros _|reflexivity]. now apply Hiff.
  - apply Nat.eqb_neq in E. split; [discriminate|].
    intros N. elim E. apply Hiff. split; [exact N | intros x _ []].
Qed.

(** X12: [validate_headers] returns exactly when no header occurs twice and,
    with expected headers given, the headers are the expected ones up to
    case and order; headers that occur twice are reported whatever is
    expected. *)
Theorem validate_headers_passes (lower : str -> str)
  (renders : FileUtils.rendering) (filepath : str)
  (headers : list str) (expected_headers : option (list str)) :
  (FileUtils.validate_headers lower renders filepath headers expected_headers
   = inr tt
   <-> NoDup headers
       /\ match expected_headers with
          | Some expected =>
              Permutation (List.map lower headers) (List.map lower expected)
          | None => True
          end)
  /\ (~ NoDup headers ->
      exists nall nuniqs,
        FileUtils.validate_headers lower renders filepath headers
          expected_headers
        = inl (FileUtils.DuplicateFileHeaders filepath nall nuniqs headers)).
Proof.
  unfold FileUtils.validate_headers.
  pose proof (not_unique_flag headers) as F.
  destruct (FileUtils._headers_are_not_unique headers) as [[[|] nu] n];
    cbn [fst] in F.
  - split.
    + split; [discriminate|]. intros [N _]. apply F in N. discriminate N.
    + intros _. eexists; eexists; reflexivity.
  - assert (N : NoDup headers) by now apply F.
    split; [|intros H; elim (H N)].
    destruct expected_headers as [expected|]; [|tauto].
    rewrite <- as_expected_perm.
    destruct (FileUtils.headers_are_as_expected lower expected headers);
      cbn [negb]; split; try tauto; try discriminate.
    intros [_ H]; discriminate H.
Qed.

Lemma filter_nil_all (f : str -> bool) (l : list str) :
  filter f l = [] -> forall x, In x l -> f x = false.
Proof.
  induction l as [|y l IH]; simpl; [intros _ x []|].
  destruct (f y) eqn:E; [discriminate|].
  intros H x [<-|Hx]; [exact E | now apply IH].
Qed.

(** X13: When [validate_headers] raises [InvalidHeaders] against expected
    headers that are distinct, the error names a missing or an unexpected
    header; and it never carries the file, whose path went to the file
    format. *)
Theorem invalid_headers_named (lower : str -> str)
  (renders : FileUtils.rendering) (filepath : str)
  (headers expected hs es missing unexpected : list str) (file : option str) :
  NoDup expected ->
  FileUtils.validate_headers lower renders filepath headers (Some expected)
  = inl (FileUtils.InvalidHeaders hs es missing unexpected file) ->
  (missing <> [] \/ unexpected <> []) /\ file = None.
Proof.
  intros Ne. unfold FileUtils.validate_headers.
  pose proof (not_unique_flag headers) as F.
  destruct (FileUtils._headers_are_not_unique headers) as [[[|] nu] n];
    cbn [fst] in F; [discriminate|].
  assert (N : NoDup headers) by now apply F.
  destruct (FileUtils.headers_are_as_expected lower expected headers) eqn:A;
    cbn [negb]; [discriminate|].
  unfold FileUtils.invalid_headers.
  destruct (renders _ _ _); [|discriminate]. intros H.
  injection H as <- <- <- <- <-. split; [|reflexivity].
  destruct (FileUtils.missing_of headers expected) as [|m ms] eqn:M;
    [|left; discriminate].
  destruct (FileUtils.unexpected_of headers expected) as [|u us] eqn:U;
    [|right; discriminate].
  exfalso.
  assert (P : Permutation headers expected).
  { apply NoDup_Permutation; [exact N | exact Ne|]. intros x. split; intros Hx.
    - pose proof (filter_nil_all _ _ U x Hx) as Hf.
      apply negb_false_iff in Hf. now apply contains_In.
    - pose proof (filter_nil_all _ _ M x Hx) as Hf.
      apply negb_false_iff in Hf. now apply contains_In. }
  assert (T : FileUtils.headers_are_as_expected lower expected headers = true).
  { apply as_expected_perm. now apply Permutation_map. }
  congruence.
Qed.

(** [Bearing] for [bearing] passes the check up to case, and a third
    column does not. *)
Lemma invalid_headers_named_example :
  NoDup (FileUtils.strs ["bearing"; "distance"]%string)
  /\ FileUtils.validate_headers ascii_lower plain (of_string "plot.tsv")
       (FileUtils.strs ["Bearing"; "distance"]%string)
       (Some (FileUtils.strs ["bearing"; "distance"]%string)) = inr tt
  /\ exists missing unexpected,
       FileUtils.validate_headers ascii_lower plain (of_string "plot.tsv")
         (FileUtils.strs ["bearing"; "distance"; "comment"]%string)
         (Some (FileUtils.strs ["bearing"; "distance"]%string))
       = inl (FileUtils.InvalidHeaders
                (FileUtils.strs ["bearing"; "distance"; "comment"]%string)
                (FileUtils.strs ["bearing"; "distance"]%string)
                missing unexpected None)
       /\ (missing <> [] \/ unexpected <> []).
Proof.
  assert (Ne : NoDup (FileUtils.strs ["bearing"; "distance"]%string)).
  { repeat constructor; simpl; intuition discriminate. }
  split; [exact Ne|]. split; [vm_compute; reflexivity|].
  eexists; eexists.
  assert (H : FileUtils.validate_headers ascii_lower plain (of_string "plot.tsv")
         (FileUtils.strs ["bearing"; "distance"; "comment"]%string)
         (Some (FileUtils.strs ["bearing"; "distance"]%string))
       = inl (FileUtils.InvalidHeaders
                (FileUtils.strs ["bearing"; "distance"; "comment"]%string)
                (FileUtils.strs ["bearing"; "distance"]%string)
                [] [of_string "comment"] None)) by (vm_compute; reflexivity).
  split; [exact H|].
  exact (proj1 (invalid_headers_named ascii_lower plain _ _ Ne H)).
Defined.

(** Two [bearing] columns are reported as duplicates, also when the
    expected headers are given. *)
Lemma validate_headers_passes_example :
  ~ NoDup (FileUtils.strs ["bearing"; "distance"; "bearing"]%string)
  /\ exists nall nuniqs,
       FileUtils.validate_headers ascii_lower plain (of_string "plot.csv")
         (FileUtils.strs ["bearing"; "distance"; "bearing"]%string)
         (Some (FileUtils.strs ["bearing"; "distance"]%string))
       = inl (FileUtils.DuplicateFileHeaders (of_string "plot.csv") nall nuniqs
                (FileUtils.strs ["bearing"; "distance"; "bearing"]%string)).
Proof.
  assert (D : ~ NoDup (FileUtils.strs ["bearing"; "distance"; "bearing"]%string)).
  { intros N. inversion N as [|? ? Hn _]; subst. apply Hn. right. now left. }
  split; [exact D|].
  exact (proj2 (validate_headers_passes ascii_lower plain (of_string "plot.csv") _
                  (Some (FileUtils.strs ["bearing"; "distance"]%string))) D).
Defined.

(** ** The dtype keys and the file type *)

Lemma filter_length_all (f : str -> bool) (l : list str) :
  (List.length (filter f l) <= List.length l)%nat
  /\ (List.length (filter f l) = List.length l <-> forallb f l = true).
Proof.
  induction l as [|x l [Hle Hiff]]; simpl; [split; [lia | tauto]|].
  destruct (f x); simpl.
  - split; [lia|]. rewrite <- Hiff. lia.
  - split; [lia|]. split; [lia | discriminate].
Qed.

Lemma filter_length_none (f : str -> bool) (l : list str) :
  List.length (filter f l) = 0%nat <-> forallb (fun x => negb (f x)) l = true.
Proof.
  induction l as [|x l IH]; simpl; [tauto|].
  destruct (f x); simpl; [split; [lia | discriminate] | exact IH].
Qed.

(** X14: [_check_dtype_arg] is silent exactly when every key is a column; it
    raises when there are keys and none of them is a column, and warns
    only when some key is a column and some key is not. *)
Theorem check_dtype_arg_cases (renders : FileUtils.rendering)
  (columns keys : list str) :
  (FileUtils._check_dtype_arg renders (Some columns) (Some keys) = inr None
   <-> forall k, In k keys -> In k columns)
  /\ (keys <> [] -> (forall k, In k keys -> ~ In k columns) ->
      FileUtils._check_dtype_arg renders (Some columns) (Some keys)
      = inl (if renders FileUtils.ForInvalidDtypeDict keys columns
             then FileUtils.InvalidDtypeDict keys columns
             else FileUtils.MessageError))
  /\ (forall w,
        FileUtils._check_dtype_arg renders (Some columns) (Some keys)
        = inr (Some w) ->
        (exists k, In k keys /\ In k columns)
        /\ (exists k, In k keys /\ ~ In k columns)).
Proof.
  unfold FileUtils._check_dtype_arg.
  set (f := fun dtk => negb (FileUtils.contains columns dtk)).
  destruct (filter_length_all f keys) as [Hle Hall].
  pose proof (filter_length_none f keys) as Hnone.
  assert (A : forallb f keys = true <-> forall k, In k keys -> ~ In k columns).
  { rewrite forallb_forall. unfold f. split; intros H k Hk.
    - apply contains_not_In. apply negb_true_iff. now apply H.
    - apply negb_true_iff. apply contains_not_In. now apply H. }
  assert (B : forallb (fun x => negb (f x)) keys = true
              <-> forall k, In k keys -> In k columns).
  { rewrite forallb_forall. unfold f. split; intros H k Hk.
    - apply contains_In. specialize (H k Hk). now rewrite negb_involutive in H.
    - rewrite negb_involutive. apply contains_In. now apply H. }
  assert (P : forallb f keys = false -> exists k, In k keys /\ In k columns).
  { intros H. destruct (existsb (fun x => negb (f x)) keys) eqn:X.
    - apply existsb_exists in X as [k [Hk Hf]]. exists k. split; [exact Hk|].
      unfold f in Hf. rewrite negb_involutive in Hf. now apply contains_In.
    - assert (T : forallb f keys = true); [|congruence].
      apply forallb_forall. intros k Hk.
      destruct (f k) eqn:Fk; [reflexivity|].
      assert (existsb (fun x => negb (f x)) keys = true); [|congruence].
      apply existsb_exists. exists k. now rewrite Fk. }
  assert (M : forallb (fun x => negb (f x)) keys = false ->
              exists k, In k keys /\ ~ In k columns).
  { intros H. destruct (existsb f keys) eqn:X.
    - apply existsb_exists in X as [k [Hk Hf]]. exists k. split; [exact Hk|].
      unfold f in Hf. apply negb_true_iff in Hf. now apply contains_not_In.
    - assert (T : forallb (fun x => negb (f x)) keys = true); [|congruence].
      apply forallb_forall. intros k Hk.
      destruct (f k) eqn:Fk; [|reflexivity].
      assert (existsb f keys = true); [|congruence].
      apply existsb_exists. exists k. now split. }
  destruct keys as [|k0 keys'].
  { cbn. repeat split; try discriminate; try tauto. }
  cbn [List.length] in *.
  change (0 <? S (List.length keys'))%nat with true. cbv iota.
  remember (List.length (filter f (k0 :: keys'))) as m eqn:Em.
  destruct (m =? S (List.length keys'))%nat eqn:E1.
  - apply Nat.eqb_eq in E1. split; [|split].
    + split; [destruct (renders _ _ _); discriminate|].
      intros H. apply B, Hnone in H. lia.
    + intros _ _. now destruct (renders _ _ _).
    + intros w. destruct (renders _ _ _); discriminate.
  - apply Nat.eqb_neq in E1.
    assert (F : forallb f (k0 :: keys') = false).
    { apply not_true_is_false. intros T. apply Hall in T. lia. }
    destruct m as [|m']; cbn [Nat.ltb Nat.leb].
    + split; [|split].
      * split; [intros _|reflexivity]. now apply B, Hnone.
      * intros _ H. apply A in H. congruence.
      * discriminate.
    + assert (G : forallb (fun x => negb (f x)) (k0 :: keys') = false).
      { apply not_true_is_false. intros T. apply Hnone in T. lia. }
      split; [|split].
      * split; [destruct (renders _ _ _); discriminate|].
        intros H. apply B in H. congruence.
      * intros _ H. apply A in H. congruence.
      * intros w _. split; [now apply P | now apply M].
Qed.

Lemma extension_type_known (ext t : str) :
  FileUtils.extension_type FileUtils.extensions ext = Some t ->
  In t FileUtils.filetypes.
Proof.
  unfold FileUtils.extensions. cbn [FileUtils.extension_type].
  repeat (destruct (Py.eqb _ ext);
          [intros H; injection H as <-; vm_compute; tauto|]).
  discriminate.
Qed.

Lemma file_type_in_list (suffix : str) (workbook : FileUtils.probe)
  (filetype : option str) (t : str) :
  FileUtils._get_file_type suffix workbook filetype = inr t ->
  In t FileUtils.filetypes.
Proof.
  unfold FileUtils._get_file_type. destruct filetype as [t'|].
  - destruct (FileUtils.contains FileUtils.filetypes t') eqn:C;
      cbn [negb]; [|discriminate].
    intros H; injection H as <-. now apply contains_In.
  - destruct (FileUtils.extension_type _ _) as [t'|] eqn:E.
    + intros H; injection H as <-. exact (extension_type_known _ E).
    + destruct workbook; try discriminate.
      intros H; injection H as <-. vm_compute. tauto.
Qed.

(** X15: [_get_file_type] returns one of csv, tsv, excel, yaml and nothing
    else, whatever the suffix, the file and the file type asked for; a
    file type asked for is returned as it is when it is one of the four,
    and raises otherwise, without a look at the file. *)
Theorem file_type_is_known (suffix : str) (workbook : FileUtils.probe)
  (filetype : option str) :
  (forall t, FileUtils._get_file_type suffix workbook filetype = inr t ->
             In t FileUtils.filetypes)
  /\ (forall t, filetype = Some t ->
        FileUtils._get_file_type suffix workbook filetype
        = if FileUtils.contains FileUtils.filetypes t
          then inr t else inl (FileUtils.InvalidFileType t)).
Proof.
  split.
  - intros t. apply file_type_in_list.
  - intros t ->. unfold FileUtils._get_file_type.
    now destruct (FileUtils.contains FileUtils.filetypes t).
Qed.

(** A path that ends in [.yml] is a yaml file. *)
Lemma file_type_is_known_example :
  FileUtils._get_file_type (of_string ".yml") FileUtils.NotExcel None
  = inr (of_string "yaml")
  /\ In (of_string "yaml") FileUtils.filetypes.
Proof.
  assert (H : FileUtils._get_file_type (of_string ".yml") FileUtils.NotExcel None
              = inr (of_string "yaml")) by (vm_compute; reflexivity).
  split; [exact H|].
  exact (proj1 (file_type_is_known (of_string ".yml") FileUtils.NotExcel None)
           _ H).
Defined.

(** Keys that differ from the columns in case only are all missing. *)
Lemma check_dtype_arg_cases_example :
  FileUtils.strs ["bearing"; "distance"]%string <> []
  /\ (forall k, In k (FileUtils.strs ["bearing"; "distance"]%string) ->
                ~ In k (FileUtils.strs ["Bearing"; "Distance"]%string))
  /\ FileUtils._check_dtype_arg plain
       (Some (FileUtils.strs ["Bearing"; "Distance"]%string))
       (Some (FileUtils.strs ["bearing"; "distance"]%string))
     = inl (FileUtils.InvalidDtypeDict
              (FileUtils.strs ["bearing"; "distance"]%string)
              (FileUtils.strs ["Bearing"; "Distance"]%string)).
Proof.
  assert (N : FileUtils.strs ["bearing"; "distance"]%string <> [])
    by discriminate.
  assert (D : forall k, In k (FileUtils.strs ["bearing"; "distance"]%string) ->
                ~ In k (FileUtils.strs ["Bearing"; "Distance"]%string)).
  { intros k [<-|[<-|[]]] [H|[H|[]]]; discriminate H. }
  split; [exact N|]. split; [exact D|].
  exact (proj1 (proj2 (check_dtype_arg_cases plain
           (FileUtils.strs ["Bearing"; "Distance"]%string)
           (FileUtils.strs ["bearing"; "distance"]%string))) N D).
Defined.

Lemma extension_is_excel (ext : str) :
  FileUtils.extension_type FileUtils.extensions ext = Some (of_string "excel")
  <-> ext = of_string "xlsx".
Proof.
  unfold FileUtils.extensions. cbn [FileUtils.extension_type].
  destruct (Py.eqb (of_string "csv") ext) eqn:E1;
    [apply eqb_eq in E1; subst; split; intros H; vm_compute in H; discriminate H|].
  destruct (Py.eqb (of_string "tsv") ext) eqn:E2;
    [apply eqb_eq in E2; subst; split; intros H; vm_compute in H; discriminate H|].
  destruct (Py.eqb (of_string "xlsx") ext) eqn:E3;
    [apply eqb_eq in E3; subst; split; reflexivity|].
  assert (N : ext <> of_string "xlsx")
    by (intros ->; vm_compute in E3; discriminate E3).
  destruct (Py.eqb (of_string "yaml") ext);
    [split; intros H; [vm_compute in H; discriminate H | contradiction]|].
  destruct (Py.eqb (of_string "yml") ext);
    [split; intros H; [vm_compute in H; discriminate H | contradiction]|].
  split; [discriminate | contradiction].
Qed.

(** X16: [is_excel] answers yes exactly for a path whose extension is xlsx
    and for a path of unknown extension that opens as a workbook; it
    turns the [ValueError] of an unknown extension into a no, and lets
    through only what the attempt to open the file raises besides. *)
Theorem is_excel_cases (suffix : str) (workbook : FileUtils.probe) :
  (FileUtils.is_excel (Some (suffix, workbook)) = inr true
   <-> FileUtils.strip_dots suffix = of_string "xlsx"
       \/ (FileUtils.extension_type FileUtils.extensions
             (FileUtils.strip_dots suffix) = None
           /\ workbook = FileUtils.Opens))
  /\ (forall e, FileUtils.is_excel (Some (suffix, workbook)) = inl e ->
        workbook = FileUtils.Crashes
        /\ FileUtils.extension_type FileUtils.extensions
             (FileUtils.strip_dots suffix) = None).
Proof.
  unfold FileUtils.is_excel, FileUtils._get_file_type.
  pose proof (extension_is_excel (FileUtils.strip_dots suffix)) as X.
  destruct (FileUtils.extension_type FileUtils.extensions
              (FileUtils.strip_dots suffix)) as [t|] eqn:E.
  - split; [|discriminate]. split.
    + intros H. injection H as H. apply eqb_eq in H. subst t.
      left. now apply X.
    + intros [H|[H _]]; [|discriminate H].
      apply X in H. injection H as ->. reflexivity.
  - destruct workbook; (split; [split|]).
    + intros _. right. split; reflexivity.
    + reflexivity.
    + discriminate.
    + discriminate.
    + intros [H|[_ H]]; [apply X in H|]; discriminate H.
    + discriminate.
    + discriminate.
    + intros [H|[_ H]]; [apply X in H|]; discriminate H.
    + intros e _. split; reflexivity.
Qed.

(** A path with no extension that opens as a workbook is an Excel
    file. *)
Lemma is_excel_cases_example :
  (FileUtils.extension_type FileUtils.extensions (FileUtils.strip_dots []) = None
   /\ FileUtils.Opens = FileUtils.Opens)
  /\ FileUtils.is_excel (Some ([], FileUtils.Opens)) = inr true.
Proof.
  split; [split; reflexivity|].
  apply (proj2 (proj1 (is_excel_cases [] FileUtils.Opens))).
  right. split; reflexivity.
Defined.

(** X17: [read_headers_from_file] never returns [None]: it raises what
    [_get_file_type] raises; for a file found to be excel, tsv or csv it
    returns the headers read by the reader of that type; for a file found
    to be yaml it raises. *)
Theorem read_headers_never_none (suffix : str) (workbook : FileUtils.probe)
  (filetype : option str) (xlsx tsv csv : list str) :
  (forall e, FileUtils._get_file_type suffix workbook filetype = inl e ->
     FileUtils.read_headers_from_file suffix workbook filetype xlsx tsv csv
     = inl e)
  /\ (forall t, FileUtils._get_file_type suffix workbook filetype = inr t ->
        (t = of_string "excel"
         /\ FileUtils.read_headers_from_file suffix workbook filetype
              xlsx tsv csv = inr (Some xlsx))
        \/ (t = of_string "tsv"
            /\ FileUtils.read_headers_from_file suffix workbook filetype
                 xlsx tsv csv = inr (Some tsv))
        \/ (t = of_string "csv"
            /\ FileUtils.read_headers_from_file suffix workbook filetype
                 xlsx tsv csv = inr (Some csv))
        \/ (t = of_string "yaml"
            /\ FileUtils.read_headers_from_file suffix workbook filetype
                 xlsx tsv csv = inl FileUtils.YamlHasNoHeaders))
  /\ FileUtils.read_headers_from_file suffix workbook filetype xlsx tsv csv
     <> inr None.
Proof.
  assert (T : forall t,
    FileUtils._get_file_type suffix workbook filetype = inr t ->
    (t = of_string "excel"
     /\ FileUtils.read_headers_from_file suffix workbook filetype
          xlsx tsv csv = inr (Some xlsx))
    \/ (t = of_string "tsv"
        /\ FileUtils.read_headers_from_file suffix workbook filetype
             xlsx tsv csv = inr (Some tsv))
    \/ (t = of_string "csv"
        /\ FileUtils.read_headers_from_file suffix workbook filetype
             xlsx tsv csv = inr (Some csv))
    \/ (t = of_string "yaml"
        /\ FileUtils.read_headers_from_file suffix workbook filetype
             xlsx tsv csv = inl FileUtils.YamlHasNoHeaders)).
  { intros t G. unfold FileUtils.read_headers_from_file. rewrite G.
    apply file_type_in_list in G. vm_compute in G.
    destruct G as [<-|[<-|[<-|[<-|[]]]]].
    - right; right; left. split; reflexivity.
    - right; left. split; reflexivity.
    - left. split; reflexivity.
    - right; right; right. split; reflexivity. }
  split; [|split; [exact T|]].
  - intros e G. unfold FileUtils.read_headers_from_file. now rewrite G.
  - destruct (FileUtils._get_file_type suffix workbook filetype) as [e|t] eqn:G.
    + unfold FileUtils.read_headers_from_file. rewrite G. discriminate.
    + destruct (T t eq_refl) as [[_ ->]|[[_ ->]|[[_ ->]|[_ ->]]]];
        discriminate.
Qed.

(** A [.tsv] infile gets the headers of the tsv reader, a [.yaml] infile
    none. *)
Lemma read_headers_never_none_example :
  (FileUtils._get_file_type (of_string ".tsv") FileUtils.NotExcel None
   = inr (of_string "tsv")
   /\ FileUtils.read_headers_from_file (of_string ".tsv") FileUtils.NotExcel
        None [of_string "x"] [of_string "t"] [of_string "c"]
      = inr (Some [of_string "t"]))
  /\ (FileUtils._get_file_type (of_string ".yaml") FileUtils.NotExcel None
      = inr (of_string "yaml")
      /\ FileUtils.read_headers_from_file (of_string ".yaml")
           FileUtils.NotExcel None [] [] []
         = inl FileUtils.YamlHasNoHeaders).
Proof.
  split; (split; [reflexivity|]).
  - destruct (proj1 (proj2 (read_headers_never_none (of_string ".tsv")
                FileUtils.NotExcel None [of_string "x"] [of_string "t"]
                [of_string "c"])) (of_string "tsv") eq_refl)
      as [[E _]|[[_ H]|[[E _]|[E _]]]];
      [discriminate E | exact H | discriminate E | discriminate E].
  - destruct (proj1 (proj2 (read_headers_never_none (of_string ".yaml")
                FileUtils.NotExcel None [] [] [])) (of_string "yaml") eq_refl)
      as [[E _]|[[E _]|[[E _]|[_ H]]]];
      [discriminate E | discriminate E | discriminate E | exact H].
Defined.

(* ================================================================== *)
(** * The script *)
(* ================================================================== *)

Section ScriptFacts.

Variable point : Type.
Variable Point : float -> float -> point.
Variables longitude latitude : point -> float.
Variable destination : float -> point -> float -> point.
Variable units : option unit_name.

(** Over rows that parse, the loop with its printing appends one point
    and one line per row and then goes on with the rest. *)
Lemma run_good (good : list row) (azimuths : list float) :
  Forall2 parses_to good azimuths ->
  forall (points : list point) (p0 : point),
    last_point points = Some p0 ->
    exists new,
      List.length new = List.length good
      /\ loop destination units points good = inr (points ++ new)
      /\ forall out rest,
           Script.run longitude latitude destination units points out
             (good ++ rest)
           = Script.run longitude latitude destination units (points ++ new)
               (out ++ List.map (fun p => Script.Coord (longitude p) (latitude p)) new) rest.
Proof.
  induction 1 as [|r b good azimuths Hr _ IH]; intros points p0 Hlast.
  - exists []. rewrite app_nil_r. repeat split.
    intros out rest. now rewrite app_nil_r.
  - cbn [loop app Script.run]. unfold body.
    rewrite (parse_cell_parses Hr), Hlast.
    set (e := destination (to_feet units (distance r)) p0 b).
    destruct (IH (points ++ [e]) e (last_point_snoc _ _))
      as [new [Hlen [Hloop Hrun]]].
    exists (e :: new). split; [cbn; now rewrite Hlen|].
    split; [now rewrite Hloop, <- app_assoc|].
    intros out rest. rewrite Hrun, <- !app_assoc. reflexivity.
Qed.

End ScriptFacts.

(** X18: The loop stops at the first row that does not parse: its error is
    the result, and the rows after it are not looked at. *)
Theorem traverse_fails_fast (point : Type)
  (destination : float -> point -> float -> point)
  (units : option unit_name) (origin : point)
  (good : list row) (azimuths : list float) (bad : row) (rest : list row)
  (f : failure) :
  Forall2 parses_to good azimuths ->
  parse_cell (bearing bad) = inl f ->
  traverse destination units origin (good ++ bad :: rest) = inl f.
Proof.
  intros Hg Hb. unfold traverse.
  assert (G : forall rows points,
    loop destination units points (good ++ rows)
    = match loop destination units points good with
      | inl e => inl e
      | inr points' => loop destination units points' rows
      end).
  { clear Hg. intros rows.
    induction good as [|r g IH]; intros points; [reflexivity|].
    cbn [app loop]. destruct (body destination units points r); [reflexivity|].
    apply IH. }
  rewrite G.
  destruct (run_good (fun _ => of_Z 0) (fun _ => of_Z 0) destination units Hg
              [origin] (p0 := origin) eq_refl) as [new [_ [-> _]]].
  cbn [loop]. unfold body. now rewrite Hb.
Qed.

(** A row [E], which the parser rejects, ends the traverse after a good
    row and before another. *)
Lemma traverse_fails_fast_example :
  Forall2 parses_to [Row (of_string "N 10 E") (of_Z 2)] [of_Z 10]
  /\ parse_cell (bearing (Row (of_string "E") (of_Z 1)))
     = inl (ValueError (InvalidCardinals east east (of_string "E")))
  /\ traverse walk None []
       ([Row (of_string "N 10 E") (of_Z 2)]
          ++ Row (of_string "E") (of_Z 1) :: [Row (of_string "S") (of_Z 1)])
     = inl (ValueError (InvalidCardinals east east (of_string "E"))).
Proof.
  assert (G : Forall2 parses_to [Row (of_string "N 10 E") (of_Z 2)] [of_Z 10]).
  { constructor; [|constructor]. exists (of_string "N 10 E").
    split; vm_compute; reflexivity. }
  assert (B : parse_cell (bearing (Row (of_string "E") (of_Z 1)))
     = inl (ValueError (InvalidCardinals east east (of_string "E"))))
    by (vm_compute; reflexivity).
  split; [exact G|]. split; [exact B|].
  exact (@traverse_fails_fast walked walk None []
           [Row (of_string "N 10 E") (of_Z 2)] [of_Z 10]
           (Row (of_string "E") (of_Z 1)) [Row (of_string "S") (of_Z 1)]
           (ValueError (InvalidCardinals east east (of_string "E"))) G B).
Defined.

Lemma required_columns_quiet (renders : FileUtils.rendering)
  (columns : list str) :
  has_required columns = true ->
  FileUtils._check_dtype_arg renders (Some columns) (Some required) = inr None.
Proof.
  unfold has_required. intros H. apply andb_prop in H as [Hb Hd].
  unfold FileUtils._check_dtype_arg, required, FileUtils.strs.
  cbn [List.map List.length filter Nat.ltb Nat.leb].
  rewrite Hb, Hd. reflexivity.
Qed.

Lemma distinct_headers_pass (lower : str -> str)
  (renders : FileUtils.rendering) (filepath : str) (headers : list str) :
  NoDup headers ->
  FileUtils.validate_headers lower renders filepath headers None = inr tt.
Proof.
  intros N. unfold FileUtils.validate_headers.
  apply not_unique_flag in N.
  destruct (FileUtils._headers_are_not_unique headers) as [[[|] nu] n];
    [discriminate N | reflexivity].
Qed.

Section ScriptTheorems.

Variable point : Type.
Variable Point : float -> float -> point.
Variables longitude latitude : point -> float.
Variable destination : float -> point -> float -> point.
Variable lower : str -> str.
Variable renders : FileUtils.rendering.
Variable units : option unit_name.
Variables lon lat : float.
Variable filepath : str.

(** Before the loop the script has printed the header line and the line
    of the origin, when the table passes its checks. *)
Lemma main_runs (headers columns : list str) (rows : list row) :
  has_required headers = true -> NoDup headers ->
  has_required columns = true ->
  Script.main Point longitude latitude destination lower renders units
    lon lat filepath headers columns rows
  = match Script.run longitude latitude destination units [Point lat lon]
            [Script.Header; Script.Coord lon lat] rows with
    | (out, inl f) => (out, inl (Script.RowError f))
    | (out, inr points) => (out, inr points)
    end.
Proof.
  intros Hh N Hc. unfold Script.main. fold required.
  unfold has_required in Hh. apply andb_prop in Hh as [-> ->].
  cbn [negb orb].
  rewrite (distinct_headers_pass lower renders filepath N).
  rewrite (required_columns_quiet renders _ Hc).
  unfold has_required in Hc. apply andb_prop in Hc as [-> ->].
  cbn [negb app]. destruct rows; reflexivity.
Qed.

End ScriptTheorems.

(** X19: When the table passes its checks and every row parses, the script
    prints the header line, the line of the origin and one line per row,
    the coordinates of the points of the traverse in their order. *)
Theorem script_prints_the_traverse (point : Type)
  (Point : float -> float -> point) (longitude latitude : point -> float)
  (destination : float -> point -> float -> point) (lower : str -> str)
  (renders : FileUtils.rendering)
  (units : option unit_name) (lon lat : float) (filepath : str)
  (headers columns : list str) (rows : list row) (azimuths : list float) :
  has_required headers = true -> NoDup headers ->
  has_required columns = true ->
  Forall2 parses_to rows azimuths ->
  exists new,
    List.length new = List.length rows
    /\ traverse destination units (Point lat lon) rows
       = inr (Point lat lon :: new)
    /\ Script.main Point longitude latitude destination lower renders units lon lat
         filepath headers columns rows
       = (Script.Header :: Script.Coord lon lat
            :: List.map (fun p => Script.Coord (longitude p) (latitude p)) new,
          inr (Point lat lon :: new)).
Proof.
  intros Hh N Hc Hr.
  rewrite (@main_runs point Point longitude latitude destination lower renders
             units
             lon lat filepath headers columns rows Hh N Hc).
  destruct (run_good longitude latitude destination units Hr
              [Point lat lon] (p0 := Point lat lon) eq_refl)
    as [new [Hlen [Hloop Hrun]]].
  exists new. split; [exact Hlen|]. split; [exact Hloop|].
  specialize (Hrun [Script.Header; Script.Coord lon lat] []).
  rewrite app_nil_r in Hrun. rewrite Hrun. reflexivity.
Qed.

(** X20: When a row does not parse, the lines of the rows before it have
    been printed and stay printed: the header line, the line of the
    origin and one line per earlier row, then the error of that row. *)
Theorem script_keeps_partial_output (point : Type)
  (Point : float -> float -> point) (longitude latitude : point -> float)
  (destination : float -> point -> float -> point) (lower : str -> str)
  (renders : FileUtils.rendering)
  (units : option unit_name) (lon lat : float) (filepath : str)
  (headers columns : list str)
  (good : list row) (azimuths : list float) (bad : row) (rest : list row)
  (f : failure) :
  has_required headers = true -> NoDup headers ->
  has_required columns = true ->
  Forall2 parses_to good azimuths ->
  parse_cell (bearing bad) = inl f ->
  exists new,
    List.length new = List.length good
    /\ Script.main Point longitude latitude destination lower renders units lon lat
         filepath headers columns (good ++ bad :: rest)
       = (Script.Header :: Script.Coord lon lat
            :: List.map (fun p => Script.Coord (longitude p) (latitude p)) new,
          inl (Script.RowError f)).
Proof.
  intros Hh N Hc Hg Hb.
  rewrite (@main_runs point Point longitude latitude destination lower renders
             units
             lon lat filepath headers columns (good ++ bad :: rest) Hh N Hc).
  destruct (run_good longitude latitude destination units Hg
              [Point lat lon] (p0 := Point lat lon) eq_refl)
    as [new [Hlen [_ Hrun]]].
  exists new. split; [exact Hlen|].
  rewrite Hrun. cbn [Script.run]. rewrite Hb. reflexivity.
Qed.

(** X21: An error on the table comes before any output: when the script ends
    with one, nothing has been printed. *)
Theorem table_error_prints_nothing (point : Type)
  (Point : float -> float -> point) (longitude latitude : point -> float)
  (destination : float -> point -> float -> point) (lower : str -> str)
  (renders : FileUtils.rendering)
  (units : option unit_name) (lon lat : float) (filepath : str)
  (headers columns : list str) (rows : list row) (e : FileUtils.error) :
  snd (Script.main Point longitude latitude destination lower renders units lon lat
         filepath headers columns rows) = inl (Script.TableError e) ->
  fst (Script.main Point longitude latitude destination lower renders units lon lat
         filepath headers columns rows) = [].
Proof.
  unfold Script.main.
  destruct (negb _ || negb _)%bool; [reflexivity|].
  destruct (FileUtils.validate_headers _ _ _ _); [reflexivity|].
  destruct (FileUtils._check_dtype_arg _ _ _); [reflexivity|].
  destruct rows as [|r rows']; [discriminate|].
  destruct (negb _); [discriminate|]. destruct (negb _); [discriminate|].
  destruct (Script.run _ _ _ _ _ _ _) as [out [f|points]]; cbn [snd];
    discriminate.
Qed.

(** X22: The script asks for the headers [bearing] and [distance] as they are
    written: without one of them it prints nothing and raises
    [InvalidHeaders], which names at least one missing header and no
    file, unless the message of that error does not render. *)
Theorem script_requires_headers (point : Type)
  (Point : float -> float -> point) (longitude latitude : point -> float)
  (destination : float -> point -> float -> point) (lower : str -> str)
  (renders : FileUtils.rendering)
  (units : option unit_name) (lon lat : float) (filepath : str)
  (headers columns : list str) (rows : list row) :
  has_required headers = false ->
  exists missing unexpected,
    Script.main Point longitude latitude destination lower renders units lon lat
      filepath headers columns rows
    = ([], inl (Script.TableError
                  (if renders FileUtils.ForInvalidHeaders missing unexpected
                   then FileUtils.InvalidHeaders headers required missing
                          unexpected None
                   else FileUtils.MessageError)))
    /\ missing <> []
    /\ (forall h, In h missing <-> In h required /\ ~ In h headers).
Proof.
  intros H. unfold Script.main. fold required.
  exists (FileUtils.missing_of headers required),
         (FileUtils.unexpected_of headers required).
  unfold has_required in H. apply andb_false_iff in H.
  split; [|split].
  - destruct H as [-> | ->]; cbn [negb orb]; [reflexivity|].
    now rewrite orb_true_r.
  - unfold FileUtils.missing_of, required, FileUtils.strs.
    cbn [List.map filter].
    destruct H as [-> | ->]; cbn [negb].
    + discriminate.
    + destruct (negb _); discriminate.
  - intros h. unfold FileUtils.missing_of. rewrite filter_In.
    rewrite negb_true_iff, contains_not_In. tauto.
Qed.

Lemma two_rows_parse : Forall2 parses_to two_rows two_azimuths.
Proof.
  constructor; [|constructor; [|constructor]].
  - exists (of_string "N 10 E"). split; vm_compute; reflexivity.
  - exists (of_string "S"). split; vm_compute; reflexivity.
Qed.

Lemma plot_headers_distinct : NoDup plot_headers.
Proof.
  repeat constructor; simpl; intuition discriminate.
Qed.

(** Two rows give four lines. *)
Lemma script_prints_the_traverse_example :
  has_required plot_headers = true /\ NoDup plot_headers
  /\ Forall2 parses_to two_rows two_azimuths
  /\ exists new,
       List.length new = List.length two_rows
       /\ traverse shift (Some poles) (pair_point (of_Z 35) (of_Z (-80))) two_rows
          = inr (pair_point (of_Z 35) (of_Z (-80)) :: new)
       /\ Script.main pair_point snd fst shift ascii_lower plain (Some poles)
            (of_Z (-80)) (of_Z 35) (of_string "plot.tsv")
            plot_headers plot_headers two_rows
          = (Script.Header :: Script.Coord (of_Z (-80)) (of_Z 35)
               :: List.map (fun p => Script.Coord (snd p) (fst p)) new,
             inr (pair_point (of_Z 35) (of_Z (-80)) :: new)).
Proof.
  split; [reflexivity|]. split; [exact plot_headers_distinct|].
  split; [exact two_rows_parse|].
  exact (@script_prints_the_traverse (float * float) pair_point snd fst shift
           ascii_lower plain (Some poles) (of_Z (-80)) (of_Z 35) (of_string "plot.tsv")
           plot_headers plot_headers two_rows two_azimuths
           eq_refl plot_headers_distinct eq_refl two_rows_parse).
Defined.

(** A third row [E] leaves the four lines of the two rows before it. *)
Lemma script_keeps_partial_output_example :
  parse_cell (bearing (Row (of_string "E") (of_Z 1)))
  = inl (ValueError (InvalidCardinals east east (of_string "E")))
  /\ exists new,
       List.length new = List.length two_rows
       /\ Script.main pair_point snd fst shift ascii_lower plain None
            (of_Z (-80)) (of_Z 35) (of_string "plot.tsv")
            plot_headers plot_headers
            (two_rows ++ Row (of_string "E") (of_Z 1) :: [])
          = (Script.Header :: Script.Coord (of_Z (-80)) (of_Z 35)
               :: List.map (fun p => Script.Coord (snd p) (fst p)) new,
             inl (Script.RowError
                    (ValueError (InvalidCardinals east east (of_string "E"))))).
Proof.
  assert (B : parse_cell (bearing (Row (of_string "E") (of_Z 1)))
     = inl (ValueError (InvalidCardinals east east (of_string "E"))))
    by (vm_compute; reflexivity).
  split; [exact B|].
  exact (@script_keeps_partial_output (float * float) pair_point snd fst shift
           ascii_lower plain None (of_Z (-80)) (of_Z 35) (of_string "plot.tsv")
           plot_headers plot_headers two_rows two_azimuths
           (Row (of_string "E") (of_Z 1)) []
           (ValueError (InvalidCardinals east east (of_string "E")))
           eq_refl plot_headers_distinct eq_refl two_rows_parse B).
Defined.

(** With a header [Bearing] the script prints nothing. *)
Lemma table_error_prints_nothing_example :
  snd (Script.main pair_point snd fst shift ascii_lower plain None
         (of_Z (-80)) (of_Z 35) (of_string "plot.tsv")
         capital_headers capital_headers two_rows)
  = inl (Script.TableError
           (FileUtils.InvalidHeaders capital_headers required
              [of_string "bearing"] [of_string "Bearing"] None))
  /\ fst (Script.main pair_point snd fst shift ascii_lower plain None
            (of_Z (-80)) (of_Z 35) (of_string "plot.tsv")
            capital_headers capital_headers two_rows) = [].
Proof.
  assert (H : snd (Script.main pair_point snd fst shift ascii_lower plain None
         (of_Z (-80)) (of_Z 35) (of_string "plot.tsv")
         capital_headers capital_headers two_rows)
  = inl (Script.TableError
           (FileUtils.InvalidHeaders capital_headers required
              [of_string "bearing"] [of_string "Bearing"] None)))
    by (vm_compute; reflexivity).
  split; [exact H|].
  exact (@table_error_prints_nothing (float * float) pair_point snd fst shift
           ascii_lower plain None (of_Z (-80)) (of_Z 35) (of_string "plot.tsv")
           capital_headers capital_headers two_rows _ H).
Defined.

(** [Bearing] is not [bearing]. *)
Lemma script_requires_headers_example :
  has_required capital_headers = false
  /\ exists missing unexpected,
       Script.main pair_point snd fst shift ascii_lower plain None
         (of_Z (-80)) (of_Z 35) (of_string "plot.tsv")
         capital_headers capital_headers two_rows
       = ([], inl (Script.TableError
                     (if plain FileUtils.ForInvalidHeaders missing unexpected
                      then FileUtils.InvalidHeaders capital_headers required
                             missing unexpected None
                      else FileUtils.MessageError)))
       /\ missing <> []
       /\ (forall h, In h missing <-> In h required /\ ~ In h capital_headers).
Proof.
  split; [reflexivity|].
  exact (@script_requires_headers (float * float) pair_point snd fst shift
           ascii_lower plain None (of_Z (-80)) (of_Z 35) (of_string "plot.tsv")
           capital_headers capital_headers two_rows eq_refl).
Defined.

(* ================================================================== *)
(** * How a traverse ends and how it grows *)
(* ================================================================== *)

Lemma parse_cell_failure (cell : str) (f : failure) :
  parse_cell cell = inl f ->
  f = TypeError
  \/ exists e, f = ValueError e
               /\ (axis_conflict e \/ not_a_number e \/ out_of_range e).
Proof.
  unfold parse_cell. destruct (BearingsToGps.get_row_val cell) as [b|];
    [|intros H; injection H as <-; now left].
  destruct (parse_bearing b) as [x|e] eqn:E; [discriminate|].
  intros H; injection H as <-. right. exists e. split; [reflexivity|].
  rewrite parse_bearing_steps in E.
  destruct (steps_error _ E) as [[A _]|[_ [A|A]]]; tauto.
Qed.

Section Growth.

Variable point : Type.
Variable destination : float -> point -> float -> point.
Variable units : option unit_name.

Lemma loop_app (rows more : list row) (points : list point) :
  loop destination units points (rows ++ more)
  = match loop destination units points rows with
    | inl e => inl e
    | inr points' => loop destination units points' more
    end.
Proof.
  revert points. induction rows as [|r rows IH]; intros points; [reflexivity|].
  cbn [app loop]. destruct (body destination units points r); [reflexivity|].
  apply IH.
Qed.

Lemma loop_grows (rows : list row) (points result : list point) :
  loop destination units points rows = inr result ->
  exists new, result = points ++ new /\ List.length new = List.length rows.
Proof.
  revert points. induction rows as [|r rows IH]; intros points; cbn [loop].
  - intros H; injection H as <-. exists []. now rewrite app_nil_r.
  - unfold body. destruct (parse_cell (bearing r)) as [e|b]; [discriminate|].
    destruct (last_point points) as [p|]; [|discriminate].
    intros H. apply IH in H as [new [-> Hlen]].
    eexists. rewrite <- app_assoc. split; [reflexivity|].
    cbn. now rewrite Hlen.
Qed.

Lemma loop_failure (rows : list row) (points : list point) (f : failure) :
  last_point points <> None ->
  loop destination units points rows = inl f ->
  f = TypeError
  \/ exists e, f = ValueError e
               /\ (axis_conflict e \/ not_a_number e \/ out_of_range e).
Proof.
  revert points. induction rows as [|r rows IH]; intros points Hp; cbn [loop];
    [discriminate|].
  unfold body. destruct (parse_cell (bearing r)) as [e|b] eqn:E.
  - intros H; injection H as <-. exact (parse_cell_failure _ E).
  - destruct (last_point points) as [p|]; [|now elim Hp].
    apply IH. rewrite last_point_snoc. discriminate.
Qed.

End Growth.

(** X23: [points[-1]] never raises [IndexError]: the list holds the
    origin before the first iteration and every iteration appends to it,
    so whatever the rows the traverse does not end with that error, and
    the points of a traverse that returns begin with the origin. *)
Theorem points_never_empty (point : Type)
  (destination : float -> point -> float -> point)
  (units : option unit_name) (origin : point) (rows : list row) :
  traverse destination units origin rows <> inl IndexError
  /\ (forall points, traverse destination units origin rows = inr points ->
        exists new, points = origin :: new).
Proof.
  unfold traverse. split.
  - intros H. apply loop_failure in H; [|discriminate].
    destruct H as [H|[e [H _]]]; discriminate H.
  - intros points H. apply loop_grows in H as [new [-> _]].
    exists new. reflexivity.
Qed.

(** One row and its two points, the first of them the origin. *)
Lemma points_never_empty_example :
  traverse walk None [] [Row (of_string "N 10 E") (of_Z 2)]
  = inr [[]; [(of_Z 2, of_Z 10)]]
  /\ exists new, [[]; [(of_Z 2, of_Z 10)]] = [] :: new.
Proof.
  assert (H : traverse walk None [] [Row (of_string "N 10 E") (of_Z 2)]
              = inr [[]; [(of_Z 2, of_Z 10)]]) by (vm_compute; reflexivity).
  split; [exact H|].
  exact (proj2 (@points_never_empty walked walk None []
                  [Row (of_string "N 10 E") (of_Z 2)]) _ H).
Defined.

(** X24: More rows only add points: the points of a traverse are the first
    points of the traverse of the same rows followed by others, which
    has one more point for each row added. *)
Theorem traverse_extends (point : Type)
  (destination : float -> point -> float -> point)
  (units : option unit_name) (origin : point) (rows more : list row)
  (points points' : list point) :
  traverse destination units origin rows = inr points ->
  traverse destination units origin (rows ++ more) = inr points' ->
  firstn (List.length points) points' = points
  /\ List.length points' = (List.length points + List.length more)%nat.
Proof.
  unfold traverse. intros H H'. rewrite loop_app, H in H'.
  apply loop_grows in H' as [new [-> Hlen]].
  rewrite firstn_app, Nat.sub_diag, firstn_all, length_app. cbn [firstn].
  rewrite app_nil_r. split; [reflexivity | now rewrite Hlen].
Qed.

(** One row, then the same row and one more. *)
Lemma traverse_extends_example :
  traverse walk None [] [Row (of_string "N 10 E") (of_Z 2)]
  = inr [[]; [(of_Z 2, of_Z 10)]]
  /\ traverse walk None []
       ([Row (of_string "N 10 E") (of_Z 2)] ++ [Row (of_string "S") (of_Z 1)])
     = inr [[]; [(of_Z 2, of_Z 10)]; [(of_Z 2, of_Z 10); (of_Z 1, of_Z 180)]]
  /\ firstn 2 [[]; [(of_Z 2, of_Z 10)];
               [(of_Z 2, of_Z 10); (of_Z 1, of_Z 180)]]
     = [[]; [(of_Z 2, of_Z 10)]].
Proof.
  assert (H : traverse walk None [] [Row (of_string "N 10 E") (of_Z 2)]
              = inr [[]; [(of_Z 2, of_Z 10)]]) by (vm_compute; reflexivity).
  assert (H' : traverse walk None []
       ([Row (of_string "N 10 E") (of_Z 2)] ++ [Row (of_string "S") (of_Z 1)])
     = inr [[]; [(of_Z 2, of_Z 10)]; [(of_Z 2, of_Z 10); (of_Z 1, of_Z 180)]])
    by (vm_compute; reflexivity).
  split; [exact H|]. split; [exact H'|].
  exact (proj1 (@traverse_extends walked walk None []
                  [Row (of_string "N 10 E") (of_Z 2)]
                  [Row (of_string "S") (of_Z 1)] _ _ H H')).
Defined.

(* ================================================================== *)
(** * South to east, on the numeric runs found *)
(* ================================================================== *)

Lemma scan_run (a cur : str) :
  scan cur true a
  = (rev cur ++ take_while numeric a) :: scan [] false (drop_while numeric a).
Proof.
  revert cur. induction a as [|c a IH]; intros cur; simpl.
  - now rewrite app_nil_r.
  - destruct (numeric c) eqn:E.
    + rewrite IH. simpl. rewrite <- app_assoc. reflexivity.
    + rewrite app_nil_r. simpl. rewrite E. reflexivity.
Qed.

Lemma scan_skip (a : str) :
  scan [] false a = scan [] false (drop_while not_numeric a).
Proof.
  induction a as [|c a IH]; [reflexivity|]. simpl.
  unfold not_numeric at 1. destruct (numeric c) eqn:E; simpl.
  - now rewrite E.
  - exact IH.
Qed.

(** The runs found, one run at a time. *)
Lemma numeric_runs_step (a : str) :
  numeric_runs a
  = match drop_while not_numeric a with
    | [] => []
    | c :: b =>
        take_while numeric (c :: b)
          :: numeric_runs (drop_while numeric (c :: b))
    end.
Proof.
  unfold numeric_runs. rewrite scan_skip.
  destruct (drop_while not_numeric a) as [|c b] eqn:E; [reflexivity|].
  apply drop_while_head in E. unfold not_numeric in E.
  apply negb_false_iff in E. simpl. rewrite E, scan_run. reflexivity.
Qed.

Lemma take_while_nil_run (b : str) :
  match b with [] => [] | c :: b' => take_while numeric (c :: b') end
  = take_while numeric b.
Proof. now destruct b. Qed.

(** In a middle zone that starts with a number, the groups of
    [angle_pat] are the first three numeric runs found. *)
Lemma groups_are_runs_found (a : str) :
  starts_with_number a = true ->
  degrees_run a = run_found 0 a
  /\ minutes_run a = run_found 1 a
  /\ seconds_run a = run_found 2 a.
Proof.
  intros Ha. unfold degrees_run, minutes_run, seconds_run, after_run, run_found.
  assert (D : drop_while not_numeric a = a).
  { destruct a as [|c a]; [reflexivity|]. simpl in *.
    unfold not_numeric. now rewrite Ha. }
  rewrite (numeric_runs_step a), D.
  destruct a as [|c a]; [repeat split|].
  cbn [nth]. split; [reflexivity|].
  rewrite (numeric_runs_step (drop_while numeric (c :: a))).
  destruct (drop_while not_numeric (drop_while numeric (c :: a))) as [|d b];
    [repeat split|].
  cbn [nth]. split; [reflexivity|].
  rewrite (numeric_runs_step (drop_while numeric (d :: b))).
  destruct (drop_while not_numeric (drop_while numeric (d :: b))) as [|e b'];
    reflexivity.
Qed.

(** In a middle zone with no numeric character there is no run to find
    and no group to read. *)
Lemma no_runs_found (a : str) :
  all_in not_numeric a = true ->
  run_found 0 a = [] /\ run_found 1 a = [] /\ run_found 2 a = [].
Proof.
  intros Ha. unfold run_found. rewrite numeric_runs_step.
  rewrite (drop_while_all _ _ Ha). repeat split.
Qed.

(** C2, as stated, fails.  [S 600 E] is within its hypotheses and has no
    result: 180 - 600 + 360 is below 0 and the parser raises.  [S ,10 E]
    is within its hypotheses too, its first numeric run found is [10],
    and the result is 180 - 10/60 and not 180 - 10. *)
Lemma south_to_east_is_not_always_a_result :
  (begins_with "Ss" (prefix_zone (of_string "S 600 E")) = true
   /\ begins_with "SsNnWw" (suffix_zone (of_string "S 600 E")) = false
   /\ ~ (exists r, parse_bearing (of_string "S 600 E") = Ok r))
  /\ (begins_with "Ss" (prefix_zone (of_string "S ,10 E")) = true
      /\ begins_with "SsNnWw" (suffix_zone (of_string "S ,10 E")) = false
      /\ run_found 0 (middle_zone (of_string "S ,10 E")) = of_string "10"
      /\ parse_bearing (of_string "S ,10 E")
         = Ok (add (of_Z 180) (div (of_Z (-10)) (of_Z 60)))
      /\ parse_bearing (of_string "S ,10 E") <> Ok (of_Z 170)).
Proof.
  split.
  - split; [reflexivity|]. split; [reflexivity|].
    intros [r H]. vm_compute in H. discriminate H.
  - split; [reflexivity|]. split; [reflexivity|]. split; [reflexivity|].
    split; [vm_compute; reflexivity|].
    intros H. vm_compute in H. discriminate H.
Qed.

(** C2, amended: when the prefix zone begins with S or s, the suffix zone
    is empty or begins with a character other than S, s, N, n, W, w, and
    the middle zone starts with a number or holds none, the base is 180
    and the sign is -1 on the first, second and third numeric run found:
    the parser raises the error of [float] on the first of them that is
    not a number; otherwise it forms
    180 + (-1) * degrees + (-1) * minutes / 60 + (-1) * seconds / 3600
    over the runs present, adds 360 once when that is negative, and
    returns it when it is not below 0 and not above 360, raising the
    out-of-range error when it is. *)
Theorem south_to_east_on_runs_found (s : str) :
  begins_with "Ss" (prefix_zone s) = true ->
  begins_with "SsNnWw" (suffix_zone s) = false ->
  starts_with_number (middle_zone s) || all_in not_numeric (middle_zone s)
  = true ->
  parse_bearing s =
    (d <- component (run_found 0 (middle_zone s)) ;;
     m <- component (run_found 1 (middle_zone s)) ;;
     sec <- component (run_found 2 (middle_zone s)) ;;
     normalized (swung (of_Z 180) (-1) d m sec)).
Proof.
  intros Hp Hx Hm. rewrite (south_swings_east s Hp Hx).
  apply orb_prop in Hm as [Hm|Hm].
  - destruct (groups_are_runs_found _ Hm) as [-> [-> ->]]. reflexivity.
  - destruct (no_numeric_runs _ Hm) as [-> [-> ->]].
    destruct (no_runs_found _ Hm) as [-> [-> ->]]. reflexivity.
Qed.

(** [S 46 59 26 E] is 180 - 46 - 59/60 - 26/3600, and [S 600 E] raises
    the out-of-range error. *)
Lemma south_to_east_on_runs_found_example :
  (begins_with "Ss" (prefix_zone (of_string "S 46 59 26 E")) = true
   /\ begins_with "SsNnWw" (suffix_zone (of_string "S 46 59 26 E")) = false
   /\ starts_with_number (middle_zone (of_string "S 46 59 26 E"))
      || all_in not_numeric (middle_zone (of_string "S 46 59 26 E")) = true
   /\ parse_bearing (of_string "S 46 59 26 E")
      = Ok (add (add (add (of_Z 180) (of_Z (-46)))
                   (div (of_Z (-59)) (of_Z 60)))
              (div (of_Z (-26)) (of_Z 3600))))
  /\ parse_bearing (of_string "S 600 E")
     = Error (InvalidBearingResult (of_Z (-60))).
Proof.
  split.
  - split; [reflexivity|]. split; [reflexivity|]. split; [reflexivity|].
    etransitivity.
    + apply (south_to_east_on_runs_found (of_string "S 46 59 26 E"));
        reflexivity.
    + vm_compute; reflexivity.
  - etransitivity.
    + apply (south_to_east_on_runs_found (of_string "S 600 E")); reflexivity.
    + vm_compute; reflexivity.
Defined.
